(** * PaperTrading: the portfolio ledger and the market-data hook

    A shallow embedding of the trading core of the React application
    ([useMarketData], [canTrade] and [executeTrade] of the main component,
    together with the initial portfolio created by [signup]).

    Conventions of the embedding.
    - A JavaScript number is an exact rational ([Q]); the one non-number
      that the code tests for, the [NaN] that [parseFloat] returns on an
      unparsable string, is the [None] of [option Q].  Rounding, infinities
      and [NaN] arithmetic are outside the model.  For that reason the
      properties below are stated on the code's own expressions, with the
      operations in the order in which the code applies them: they say
      which operation the code performs on which stored value, and avoid
      the identities (regrouping a sum, cancelling a product by a quotient)
      that rounding would break.
    - A JavaScript object used as a dictionary is a [gmap string _]; the
      spread [{...a, ...b}] is the union in which [b] wins.
    - React state is passed explicitly: a handler takes the state of the
      render it was created in and returns the state after its setters ran.
      [alert] calls are returned as the list of their messages.
    - Clock reads ([Date.now()], [toISOString()]) and the outcome of [fetch]
      are inputs. *)

From Stdlib Require Import QArith Lqa ZArith String List Sorted.
From stdpp Require Import gmap strings list fin_maps.

Local Open Scope string_scope.
Local Open Scope list_scope.
Local Open Scope Q_scope.

(** ** JavaScript numbers *)

Abbreviation number := Q (only parsing).

(** [!x] is false exactly for a number other than [0]. *)
Definition truthy (x : number) : bool := negb (Qeq_bool x 0).

(** [x < y], [x > y], [x <= y] and [x === y] on numbers. *)
Definition lt (x y : number) : bool := negb (Qle_bool y x).
Definition gt (x y : number) : bool := lt y x.
Definition le (x y : number) : bool := Qle_bool x y.
Definition strict_eq (x y : number) : bool := Qeq_bool x y.

(** ** Data model *)

(** A value of the [holdings] object. *)
Record Holding := mkHolding {
  quantity : number;
  avgCost : number
}.

(** An element of the [transactions] array. *)
Record Transaction := mkTransaction {
  tx_id : Z;
  tx_type : string;
  tx_symbol : string;
  tx_quantity : number;
  tx_price : number;
  tx_total : number;
  tx_timestamp : string
}.

(** A value of the [prices] object, as [fetchCryptoPrices] builds it. *)
Record PriceData := mkPriceData {
  price : number;
  change : number;
  pd_type : string;
  tradeable : bool;
  pd_lastUpdate : string
}.

(** An element of a [chartData] series. *)
Record HistoryPoint := mkHistoryPoint {
  time : string;
  hp_price : number;
  timestamp : Z
}.

(** What [useMarketData] holds. *)
Record MarketData := mkMarketData {
  prices : gmap string PriceData;
  chartData : gmap string (list HistoryPoint);
  loading : bool;
  apiError : gmap string string;
  lastUpdate : gmap string Z
}.

(** What [useStore] holds of the portfolio. *)
Record Store := mkStore {
  balance : number;
  holdings : gmap string Holding;
  transactions : list Transaction
}.

(** The state that [executeTrade] closes over. *)
Record App := mkApp {
  store : Store;
  market : MarketData;
  selectedSymbol : string;
  tradeAmount : string
}.

(** The clock as a handler reads it: [Date.now()] and
    [new Date().toISOString()].  The reads of one run of a handler are taken
    at the same instant. *)
Record Clock := mkClock {
  now : Z;
  iso : string
}.

(** The portfolio that [signup] creates. *)
Definition initialStore : Store :=
  {| balance := 100000; holdings := ∅; transactions := [] |}.

(** ** The ledger *)

Definition setBalance (b : number) (s : Store) : Store :=
  {| balance := b; holdings := holdings s; transactions := transactions s |}.

Definition setHoldings (f : gmap string Holding -> gmap string Holding)
    (s : Store) : Store :=
  {| balance := balance s; holdings := f (holdings s);
     transactions := transactions s |}.

Definition setTransactions (f : list Transaction -> list Transaction)
    (s : Store) : Store :=
  {| balance := balance s; holdings := holdings s;
     transactions := f (transactions s) |}.

Definition setTradeAmount (a : string) (app : App) (s : Store) : App :=
  {| store := s; market := market app;
     selectedSymbol := selectedSymbol app; tradeAmount := a |}.

(** [canTrade(symbol)]. *)
Definition canTrade (quotes : gmap string PriceData) (symbol : string) : bool :=
  match quotes !! symbol with
  | None => false
  | Some priceData => tradeable priceData
  end.

(** [prev[selectedSymbol]?.quantity || 0]. *)
Definition quantity_or_zero (h : option Holding) : number :=
  match h with
  | Some h => if truthy (quantity h) then quantity h else 0
  | None => 0
  end.

(** The holding written by a buy. *)
Definition boughtHolding (prev : gmap string Holding) (symbol : string)
    (qty price cost : number) : Holding :=
  {| quantity := quantity_or_zero (prev !! symbol) + qty;
     avgCost :=
       match prev !! symbol with
       | Some h => ((avgCost h * quantity h) + cost) / (quantity h + qty)
       | None => price
       end |}.

(** The holding written by a sell that leaves something:
    [{ ...prev[selectedSymbol], quantity: prev[selectedSymbol].quantity - quantity }]. *)
Definition soldHolding (h : Holding) (qty : number) : Holding :=
  {| quantity := quantity h - qty; avgCost := avgCost h |}.

Section Ledger.

(** The built-in [parseFloat]; [None] is [NaN]. *)
Variable parseFloat : string -> option number.

(** [executeTrade(type)]: the state after the call and the messages it
    alerted. *)
Definition executeTrade (type : string) (clock : Clock) (app : App)
    : App * list string :=
  match parseFloat (tradeAmount app) with
  | None => (app, [])
  | Some qty =>
    if negb (truthy qty) || le qty 0 then (app, []) else
    match price <$> prices (market app) !! selectedSymbol app with
    | None => (app, [])
    | Some price =>
      if negb (truthy price) then (app, []) else
      if negb (canTrade (prices (market app)) (selectedSymbol app)) then
        (app, ["Trading is currently unavailable for this symbol."])
      else
        let cost := qty * price in
        let sym := selectedSymbol app in
        let st := store app in
        if String.eqb type "buy" then
          if gt cost (balance st) then (app, ["Insufficient balance!"])
          else
            let st1 := setBalance (balance st - cost) st in
            let st2 :=
              setHoldings
                (fun prev => <[sym := boughtHolding prev sym qty price cost]> prev)
                st1 in
            let st3 :=
              setTransactions
                (fun prev =>
                   mkTransaction (now clock) "BUY" sym qty price cost (iso clock)
                   :: prev)
                st2 in
            (setTradeAmount "" app st3, [])
        else
          match holdings st !! sym with
          | None => (app, ["Insufficient holdings!"])
          | Some holding =>
            if lt (quantity holding) qty then (app, ["Insufficient holdings!"])
            else
              let st1 := setBalance (balance st + cost) st in
              let st2 :=
                if strict_eq (quantity holding) qty then
                  setHoldings (fun _ => delete sym (holdings st)) st1
                else
                  setHoldings
                    (fun prev =>
                       match prev !! sym with
                       | Some h => <[sym := soldHolding h qty]> prev
                       | None => prev (* not reached: [prev] is [holdings st] *)
                       end)
                    st1 in
              let st3 :=
                setTransactions
                  (fun prev =>
                     mkTransaction (now clock) "SELL" sym qty price cost (iso clock)
                     :: prev)
                  st2 in
              (setTradeAmount "" app st3, [])
          end
    end
  end.

End Ledger.

(** The store written by a buy that goes through. *)
Definition boughtStore (clock : Clock) (app : App) (q p : number) : Store :=
  {| balance := balance (store app) - q * p;
     holdings :=
       <[selectedSymbol app :=
           boughtHolding (holdings (store app)) (selectedSymbol app) q p (q * p)]>
         (holdings (store app));
     transactions :=
       mkTransaction (now clock) "BUY" (selectedSymbol app) q p (q * p) (iso clock)
       :: transactions (store app) |}.

(** The store written by a sell of [q] units out of the holding [h]. *)
Definition soldStore (clock : Clock) (app : App) (h : Holding) (q p : number)
    : Store :=
  {| balance := balance (store app) + q * p;
     holdings :=
       if strict_eq (quantity h) q
       then delete (selectedSymbol app) (holdings (store app))
       else <[selectedSymbol app := soldHolding h q]> (holdings (store app));
     transactions :=
       mkTransaction (now clock) "SELL" (selectedSymbol app) q p (q * p) (iso clock)
       :: transactions (store app) |}.

(** ** Sessions of trades *)

(** One click on Buy or Sell: the button's argument, the clock, and what the
    render holds besides the portfolio (the market data of the ticks so far,
    the selected symbol and the text of the amount field). *)
Record TradeCall := mkTradeCall {
  call_type : string;
  call_clock : Clock;
  call_market : MarketData;
  call_symbol : string;
  call_amount : string
}.

Section Sessions.

Variable parseFloat : string -> option number.

(** The portfolio after one call. *)
Definition step (s : Store) (c : TradeCall) : Store :=
  store (fst (executeTrade parseFloat (call_type c) (call_clock c)
                (mkApp s (call_market c) (call_symbol c) (call_amount c)))).

(** The portfolio after a session of calls, oldest first. *)
Definition run (calls : list TradeCall) (s : Store) : Store :=
  fold_left step calls s.

(** The call gets past the guards on the amount and on the quote: the
    amount parses to [q > 0] and the selected symbol has a tradeable quote
    with a price [p] other than [0]. *)
Definition priced_order (app : App) (q p : number) : Prop :=
  parseFloat (tradeAmount app) = Some q /\ 0 < q /\
  exists pd, prices (market app) !! selectedSymbol app = Some pd /\
             price pd = p /\ ~ p == 0 /\ tradeable pd = true.

(** The call went through: the log gained the transaction of [q] units of
    the selected symbol at price [p]. *)
Definition traded (type : string) (clock : Clock) (app : App)
    (q p : number) : Prop :=
  transactions (store (fst (executeTrade parseFloat type clock app))) =
  mkTransaction (now clock) (if String.eqb type "buy" then "BUY" else "SELL")
    (selectedSymbol app) q p (q * p) (iso clock)
  :: transactions (store app).

End Sessions.

(** The call changed nothing and alerted nothing. *)
Definition silent_noop (parseFloat : string -> option number) (type : string)
    (clock : Clock) (app : App) : Prop :=
  executeTrade parseFloat type clock app = (app, []).

(** The guard on the amount stops the call: [!quantity || quantity <= 0]. *)
Definition invalid_amount (parseFloat : string -> option number) (app : App)
    : Prop :=
  match parseFloat (tradeAmount app) with
  | None => True
  | Some q => q <= 0
  end.

(** The guard on the price stops the call: [!price]. *)
Definition unpriced (app : App) : Prop :=
  match prices (market app) !! selectedSymbol app with
  | None => True
  | Some pd => price pd == 0
  end.

(** The ledger errors of the specification are the messages of the three
    [alert] calls. *)
Definition UntradeableSymbol : string :=
  "Trading is currently unavailable for this symbol.".
Definition InsufficientCash : string := "Insufficient balance!".
Definition InsufficientHoldings : string := "Insufficient holdings!".







(** A parser for the amounts used in the examples: an unsigned integer
    literal.  [parseFloat] agrees with it on these strings, and is [NaN] on
    the empty string. *)
Fixpoint digits (s : string) (acc : N) : option N :=
  match s with
  | EmptyString => Some acc
  | String c rest =>
    let n := Ascii.N_of_ascii c in
    if (48 <=? n)%N && (n <=? 57)%N then digits rest (acc * 10 + (n - 48))%N
    else None
  end.

Definition parseUnsigned (s : string) : option number :=
  match s with
  | EmptyString => None
  | _ => (fun n => inject_Z (Z.of_N n)) <$> digits s 0%N
  end.


(** A market in which only [symbol] is quoted, at price [p]. *)
Definition quoteAt (symbol : string) (p : number) : MarketData :=
  {| prices := {[symbol := {| price := p; change := 0; pd_type := "crypto";
                              tradeable := true; pd_lastUpdate := "" |}]};
     chartData := ∅; loading := false; apiError := ∅; lastUpdate := ∅ |}.


(** ** The price feed *)

(** The symbols that [fetchCryptoPrices] keeps: the array literal of its
    [filter]. *)
Definition cryptoCatalog : list string :=
  ["BTC"; "ETH"; "SOL"; "DOGE"; "ADA"; "XRP"; "MATIC"; "AVAX"].

(** The [coinIds] table. *)
Definition coinIds : gmap string string :=
  list_to_map
    [("BTC", "bitcoin"); ("ETH", "ethereum"); ("SOL", "solana");
     ("DOGE", "dogecoin"); ("ADA", "cardano"); ("XRP", "ripple");
     ("MATIC", "matic-network"); ("AVAX", "avalanche-2")].

(** [coinIds[symbol]] used as a key of [data]: a missing entry is
    [undefined], which indexes the key of that name. *)
Definition coinId (symbol : string) : string :=
  default "undefined" (coinIds !! symbol).

(** One entry of the response body; either field may be absent. *)
Record CoinData := mkCoinData {
  usd : option number;
  usd_24h_change : option number
}.

(** How the request ends: [fetch] (or [response.json()]) throws, the
    response is not [ok], or it is [ok] with a body. *)
Inductive FetchResult :=
  | NetworkFailure
  | HttpError (status : Z)
  | HttpOk (data : gmap string CoinData).

(** The three local objects that one run of [fetchCryptoPrices] fills. *)
Record Fresh := mkFresh {
  newPrices : gmap string PriceData;
  newErrors : gmap string string;
  newTimestamps : gmap string Z
}.

Definition noFresh : Fresh :=
  {| newPrices := ∅; newErrors := ∅; newTimestamps := ∅ |}.

(** [newErrors[s] = msg]. *)
Definition setError (msg : string) (acc : Fresh) (s : string) : Fresh :=
  {| newPrices := newPrices acc;
     newErrors := <[s := msg]> (newErrors acc);
     newTimestamps := newTimestamps acc |}.

(** [data[coinId] && data[coinId].usd]: the price when the test passes. *)
Definition usdOf (data : gmap string CoinData) (id : string) : option number :=
  match data !! id with
  | Some cd =>
    match usd cd with
    | Some u => if truthy u then Some u else None
    | None => None
    end
  | None => None
  end.

(** [data[coinId].usd_24h_change || 0]. *)
Definition changeOf (data : gmap string CoinData) (id : string) : number :=
  match data !! id with
  | Some cd =>
    match usd_24h_change cd with
    | Some c => if truthy c then c else 0
    | None => 0
    end
  | None => 0
  end.

(** The body of the [forEach] over an [ok] response. *)
Definition quoteSymbol (data : gmap string CoinData) (clock : Clock)
    (acc : Fresh) (symbol : string) : Fresh :=
  match usdOf data (coinId symbol) with
  | Some u =>
    {| newPrices :=
         <[symbol := {| price := u;
                        change := changeOf data (coinId symbol);
                        pd_type := "crypto";
                        tradeable := true;
                        pd_lastUpdate := iso clock |}]> (newPrices acc);
       newErrors := newErrors acc;
       newTimestamps := <[symbol := now clock]> (newTimestamps acc) |}
  | None => setError "Data Unavailable" acc symbol
  end.

(** The quote that an [ok] response gives a symbol. *)
Definition freshQuote (data : gmap string CoinData) (clock : Clock)
    (s : string) (u : number) : PriceData :=
  {| price := u; change := changeOf data (coinId s); pd_type := "crypto";
     tradeable := true; pd_lastUpdate := iso clock |}.

(** [symbols.filter(s => [...].includes(s))]. *)
Definition cryptoSymbols (symbols : list string) : list string :=
  List.filter (fun s => bool_decide (s ∈ cryptoCatalog)) symbols.

(** The locals of [fetchCryptoPrices] when it reaches its final [if]. *)
Definition fetched (symbols : list string) (clock : Clock)
    (response : FetchResult) : Fresh :=
  match cryptoSymbols symbols with
  | [] => noFresh
  | _ :: _ =>
    match response with
    | HttpOk data => fold_left (quoteSymbol data clock) (cryptoSymbols symbols) noFresh
    | HttpError _ => fold_left (setError "API Error") (cryptoSymbols symbols) noFresh
    | NetworkFailure => fold_left (setError "Network Error") (cryptoSymbols symbols) noFresh
    end
  end.

(** [{ ...prev, ...fresh }]. *)
Definition spread {A} (prev fresh : gmap string A) : gmap string A :=
  fresh ∪ prev.

(** One run of [fetchCryptoPrices]: the market data after its setters. *)
Definition fetchCryptoPrices (symbols : list string) (clock : Clock)
    (response : FetchResult) (m : MarketData) : MarketData :=
  let fresh := fetched symbols clock response in
  if bool_decide (0 < size (newPrices fresh))%nat then
    {| prices := spread (prices m) (newPrices fresh);
       chartData := chartData m;
       loading := false;
       apiError := spread (apiError m) (newErrors fresh);
       lastUpdate := spread (lastUpdate m) (newTimestamps fresh) |}
  else m.

(** One tick of the poll: the tracked symbols, the clock and the outcome of
    the request. *)
Record Tick := mkTick {
  tick_symbols : list string;
  tick_clock : Clock;
  tick_response : FetchResult
}.

(** The hook's state when the component mounts. *)
Definition initialMarket : MarketData :=
  {| prices := ∅; chartData := ∅; loading := true; apiError := ∅;
     lastUpdate := ∅ |}.

Definition tick (m : MarketData) (t : Tick) : MarketData :=
  fetchCryptoPrices (tick_symbols t) (tick_clock t) (tick_response t) m.

(** The market data after a session of ticks, oldest first. *)
Definition poll (ticks : list Tick) (m : MarketData) : MarketData :=
  fold_left tick ticks m.

(** The tick produced a successful quote for the symbol: it put an entry for
    it in [newPrices]. *)
Definition quoted (t : Tick) (s : string) : bool :=
  bool_decide (is_Some (newPrices
    (fetched (tick_symbols t) (tick_clock t) (tick_response t)) !! s)).

(** ** The price history *)

(** [l.slice(-n)]. *)
Definition slice_last {A} (n : nat) (l : list A) : list A :=
  drop (length l - n) l.

Section History.

(** The built-in that formats the time of a point:
    [new Date(now).toLocaleTimeString('en-US', ...)]. *)
Variable toLocaleTimeString : Z -> string.

Definition newPoint (now : Z) (priceData : PriceData) : HistoryPoint :=
  {| time := toLocaleTimeString now; hp_price := price priceData;
     timestamp := now |}.

(** The updater passed to [setChartData] for one entry of [prices]. *)
Definition appendPoint (now : Z) (symbol : string) (priceData : PriceData)
    (prev : gmap string (list HistoryPoint)) : gmap string (list HistoryPoint) :=
  let existing := default [] (prev !! symbol) in
  <[symbol := slice_last 100 (existing ++ [newPoint now priceData])]> prev.

(** The effect on [prices]: one point per priced entry. *)
Definition recordHistory (now : Z) (m : MarketData) : MarketData :=
  if bool_decide (size (prices m) = 0)%nat then m else
  {| prices := prices m;
     chartData :=
       map_fold
         (fun symbol priceData prev =>
            if gt (price priceData) 0 then appendPoint now symbol priceData prev
            else prev)
         (chartData m) (prices m);
     loading := loading m;
     apiError := apiError m;
     lastUpdate := lastUpdate m |}.

(** One poll as the hook lives it: the tick, and then, when the tick called
    [setPrices], the effect on [prices], run at time [now]. *)
Definition observe (m : MarketData) (e : Tick * Z) : MarketData :=
  let t := fst e in
  let fresh := fetched (tick_symbols t) (tick_clock t) (tick_response t) in
  if bool_decide (0 < size (newPrices fresh))%nat
  then recordHistory (snd e) (tick m t)
  else tick m t.

(** The market data after a session of polls, from the mount on. *)
Definition session (events : list (Tick * Z)) : MarketData :=
  fold_left observe events initialMarket.

End History.

(** Every series holds at most 100 points. *)
Definition history_capped (cd : gmap string (list HistoryPoint)) : Prop :=
  forall s l, cd !! s = Some l -> (length l <= 100)%nat.

(** A tick at time [t] for [symbols] whose response is [ok] and prices the
    listed coin ids. *)
Definition answered (symbols : list string) (t : Z)
    (body : list (string * number)) : Tick :=
  {| tick_symbols := symbols; tick_clock := mkClock t "";
     tick_response :=
       HttpOk (list_to_map
                 (List.map (fun e => (fst e, mkCoinData (Some (snd e)) None)) body)) |}.

(** A tick at time [t] for [symbols] whose request fails as [response]. *)
Definition failing (symbols : list string) (t : Z) (response : FetchResult)
    : Tick :=
  {| tick_symbols := symbols; tick_clock := mkClock t "";
     tick_response := response |}.

(** ** Derived views of the component *)

(** [prices[symbol]?.price || 0]. *)
Definition priceOrZero (quotes : gmap string PriceData) (symbol : string)
    : number :=
  match quotes !! symbol with
  | Some pd => if truthy (price pd) then price pd else 0
  | None => 0
  end.

(** [portfolioValue]: the [reduce] over the entries of [holdings]. *)
Definition portfolioValue (hs : gmap string Holding)
    (quotes : gmap string PriceData) : number :=
  map_fold (fun symbol holding total =>
              total + quantity holding * priceOrZero quotes symbol) 0 hs.

(** [totalValue]. *)
Definition totalValue (s : Store) (quotes : gmap string PriceData) : number :=
  balance s + portfolioValue (holdings s) quotes.

(** *** Reading the log *)

(** The quantity of [symbol] that the log accounts for: bought less sold. *)
Definition netQuantity (symbol : string) (log : list Transaction) : number :=
  fold_right
    (fun tx acc =>
       if String.eqb (tx_symbol tx) symbol then
         (if String.eqb (tx_type tx) "BUY" then tx_quantity tx
          else - tx_quantity tx) + acc
       else acc)
    0 log.

(** A well-formed entry of the log. *)
Definition tx_wf (tx : Transaction) : Prop :=
  (tx_type tx = "BUY" \/ tx_type tx = "SELL") /\
  0 < tx_quantity tx /\ ~ tx_price tx == 0 /\
  tx_total tx = tx_quantity tx * tx_price tx.

(** The holding of [sym] agrees with what the log accounts for. *)
Definition position_matches (s : Store) (sym : string) : Prop :=
  match holdings s !! sym with
  | Some h => quantity h == netQuantity sym (transactions s)
  | None => netQuantity sym (transactions s) == 0
  end.

(** With nothing held only a buy can go through. *)
Definition opens_with_buy (s : Store) : Prop :=
  match last (transactions s) with
  | Some tx => tx_type tx = "BUY"
  | None => holdings s = ∅
  end.

(** *** The leaderboard *)

Record Entry := mkEntry {
  rank : Z;
  name : string;
  value : number;
  e_change : number
}.

(** The four fixed competitors of the array literal. *)
Definition competitors : list Entry :=
  [ mkEntry 2 "TraderPro" 125430 (2543 # 100);
    mkEntry 3 "CryptoKing" 118920 (1892 # 100);
    mkEntry 4 "StockMaster" 112500 (1250 # 100);
    mkEntry 5 "InvestorAce" 108750 (875 # 100) ].

(** The entry of the user. *)
Definition you (total : number) : Entry :=
  mkEntry 1 "You" total (((total - 100000) / 100000) * 100).

(** [sort((a, b) => b.value - a.value)]: the sort is stable, so an entry
    goes in front of the first one whose value is not above its own. *)
Fixpoint insertEntry (e : Entry) (l : list Entry) : list Entry :=
  match l with
  | [] => [e]
  | e' :: l' =>
    if lt (value e) (value e') then e' :: insertEntry e l' else e :: l
  end.

Definition sortEntries (l : list Entry) : list Entry :=
  fold_right insertEntry [] l.

(** [.map((item, idx) => ({ ...item, rank: idx + 1 }))]. *)
Definition rerank (l : list Entry) : list Entry :=
  imap (fun idx item =>
          mkEntry (Z.of_nat idx + 1) (name item) (value item) (e_change item)) l.

(** [leaderboardData]. *)
Definition leaderboardData (total : number) : list Entry :=
  rerank (sortEntries (you total :: competitors)).

(** *** The tracked symbols *)

(** [[...new Set(l)]]: the first occurrence of each element, in order. *)
Fixpoint uniq (seen : list string) (l : list string) : list string :=
  match l with
  | [] => []
  | x :: l' =>
    if bool_decide (x ∈ seen) then uniq seen l' else x :: uniq (x :: seen) l'
  end.

Definition defaultSymbols : list string :=
  ["BTC"; "ETH"; "SOL"; "DOGE"; "ADA"; "XRP"].

(** [allSymbols], from the list that [Object.keys(store.holdings)] gives. *)
Definition allSymbols (holdingSymbols : list string) (selected : string)
    : list string :=
  uniq [] (holdingSymbols ++ defaultSymbols ++ [selected]).

(** The [ids] of the request. *)
Definition requestIds (symbols : list string) : list string :=
  List.map coinId (cryptoSymbols symbols).

(** *** What a session of ticks leaves in the cache *)

(** A cached quote as the feed builds them. *)
Definition feed_quote (s : string) (pd : PriceData) : Prop :=
  s ∈ cryptoCatalog /\ truthy (price pd) = true /\ tradeable pd = true /\
  pd_type pd = "crypto".

(** The market data of a session: only catalog symbols are cached, stamped
    or flagged, every cached quote is stamped, and the loading flag is up
    exactly while nothing is cached. *)
Definition market_ok (m : MarketData) : Prop :=
  (forall s pd, prices m !! s = Some pd -> feed_quote s pd) /\
  (forall s, is_Some (lastUpdate m !! s) <-> is_Some (prices m !! s)) /\
  (forall s, is_Some (apiError m !! s) -> s ∈ cryptoCatalog) /\
  (loading m = true <-> prices m = ∅).

(** *** What a session leaves in the chart *)

(** Arrival order of the points of a series. *)
Definition earlier (a b : HistoryPoint) : Prop :=
  (timestamp a <= timestamp b)%Z.

(** The chart of a session whose latest effect ran at [bound]: every point
    has a price above zero and a time up to [bound], and every series is in
    arrival order. *)
Definition chart_ok (bound : Z) (cd : gmap string (list HistoryPoint)) : Prop :=
  forall s l, cd !! s = Some l ->
    Forall (fun pt => 0 < hp_price pt /\ (timestamp pt <= bound)%Z) l /\
    StronglySorted earlier l.

(** ** Accounts *)

(** A user object.  The three portfolio fields [balance], [holdings] and
    [transactions] are kept together as a [Store]; [u_id] is the number that
    [Date.now().toString()] prints; a profile from which the [password]
    field was deleted has [None] there. *)
Record User := mkUser {
  u_id : Z;
  u_email : string;
  u_password : option string;
  u_username : string;
  u_portfolio : Store;
  u_createdAt : string
}.

(** What [AuthProvider] holds, and the [currentUser] entry of
    [localStorage].  The [users] entry, which an effect rewrites after every
    change of [users], is not kept apart from [users]. *)
Record Auth := mkAuth {
  currentUser : option User;
  users : list User;
  savedUser : option User
}.

(** What a call of the context gives back: the profile it returns or the
    message of the error it throws. *)
Inductive Outcome :=
  | Returned (u : User)
  | Threw (msg : string).

(** [{ ...user }] followed by [delete userWithoutPassword.password]. *)
Definition withoutPassword (u : User) : User :=
  {| u_id := u_id u; u_email := u_email u; u_password := None;
     u_username := u_username u; u_portfolio := u_portfolio u;
     u_createdAt := u_createdAt u |}.

(** [{ ...u, balance, holdings, transactions }]. *)
Definition withPortfolio (s : Store) (u : User) : User :=
  {| u_id := u_id u; u_email := u_email u; u_password := u_password u;
     u_username := u_username u; u_portfolio := s;
     u_createdAt := u_createdAt u |}.

(** A user object less its three portfolio fields. *)
Definition withoutPortfolio (u : User)
    : Z * string * option string * string * string :=
  (u_id u, u_email u, u_password u, u_username u, u_createdAt u).

(** The state after the provider mounted: the users and the profile found
    in [localStorage]. *)
Definition mount (storedUsers : list User) (stored : option User) : Auth :=
  {| currentUser := stored; users := storedUsers; savedUser := stored |}.

(** [setCurrentUser(profile)] with its [localStorage.setItem]. *)
Definition openSession (profile : User) (us : list User) : Auth :=
  {| currentUser := Some profile; users := us; savedUser := Some profile |}.

(** [signup(email, password, username)]. *)
Definition signup (clock : Clock) (email password username : string)
    (a : Auth) : Auth * Outcome :=
  match List.find (fun u => String.eqb (u_email u) email) (users a) with
  | Some _ => (a, Threw "User already exists")
  | None =>
    let newUser :=
      {| u_id := now clock; u_email := email; u_password := Some password;
         u_username := username;
         u_portfolio := {| balance := 100000; holdings := ∅; transactions := [] |};
         u_createdAt := iso clock |} in
    (openSession (withoutPassword newUser) (users a ++ [newUser]),
     Returned (withoutPassword newUser))
  end.

(** [login(email, password)]. *)
Definition login (email password : string) (a : Auth) : Auth * Outcome :=
  match List.find
          (fun u => String.eqb (u_email u) email
                    && bool_decide (u_password u = Some password))
          (users a) with
  | None => (a, Threw "Invalid email or password")
  | Some user =>
    (openSession (withoutPassword user) (users a),
     Returned (withoutPassword user))
  end.

(** The test of [login]. *)
Definition matches (email password : string) (u : User) : bool :=
  String.eqb (u_email u) email && bool_decide (u_password u = Some password).

(** [logout()]. *)
Definition logout (a : Auth) : Auth :=
  {| currentUser := None; users := users a; savedUser := None |}.

(** [updateUserData(balance, holdings, transactions)]. *)
Definition updateUserData (s : Store) (a : Auth) : Auth :=
  match currentUser a with
  | None => a
  | Some current =>
    openSession (withPortfolio s current)
      (List.map (fun u => if Z.eqb (u_id u) (u_id current)
                          then withPortfolio s u else u)
                (users a))
  end.

(** One use of the context. *)
Inductive AuthOp :=
  | OpSignup (clock : Clock) (email password username : string)
  | OpLogin (email password : string)
  | OpLogout
  | OpUpdate (s : Store).

Definition authStep (a : Auth) (op : AuthOp) : Auth :=
  match op with
  | OpSignup clock email password username =>
    fst (signup clock email password username a)
  | OpLogin email password => fst (login email password a)
  | OpLogout => logout a
  | OpUpdate s => updateUserData s a
  end.

Definition authRun (ops : list AuthOp) (a : Auth) : Auth :=
  fold_left authStep ops a.

(** The session agrees with storage and with the accounts: the saved profile
    is the current one, and the current profile is the record of one of the
    users less its password. *)
Definition session_ok (a : Auth) : Prop :=
  savedUser a = currentUser a /\
  forall u, currentUser a = Some u ->
            exists r, r ∈ users a /\ withoutPassword r = u.

(** *** The sign-in form *)

(** The state of [AuthPage]. *)
Record Form := mkForm {
  f_isLogin : bool;
  f_email : string;
  f_password : string;
  f_username : string;
  f_error : string;
  f_loading : bool
}.

(** The form once [handleSubmit] is through: [setError('')] and
    [setLoading(true)] at the start, [setError(err.message)] in the [catch],
    [setLoading(false)] in the [finally]. *)
Definition submitted (msg : string) (f : Form) : Form :=
  {| f_isLogin := f_isLogin f; f_email := f_email f;
     f_password := f_password f; f_username := f_username f;
     f_error := msg; f_loading := false |}.

(** [handleSubmit(e)]. *)
Definition handleSubmit (clock : Clock) (f : Form) (a : Auth) : Form * Auth :=
  let attempt :=
    if f_isLogin f then login (f_email f) (f_password f) a
    else if String.eqb (f_username f) "" then (a, Threw "Username is required")
    else signup clock (f_email f) (f_password f) (f_username f) a in
  match snd attempt with
  | Returned _ => (submitted "" f, fst attempt)
  | Threw msg => (submitted msg f, fst attempt)
  end.
(** * Properties *)

(** ** Comparisons *)

Lemma lt_true (x y : number) : lt x y = true <-> x < y.
Proof.
  unfold lt. rewrite negb_true_iff, <- not_true_iff_false, Qle_bool_iff.
  split; [apply Qnot_le_lt | apply Qlt_not_le].
Qed.

Lemma lt_false (x y : number) : lt x y = false <-> y <= x.
Proof. unfold lt. rewrite negb_false_iff. apply Qle_bool_iff. Qed.

Lemma le_true (x y : number) : le x y = true <-> x <= y.
Proof. apply Qle_bool_iff. Qed.

Lemma le_false (x y : number) : le x y = false <-> y < x.
Proof.
  unfold le. rewrite <- not_true_iff_false, Qle_bool_iff.
  split; [apply Qnot_le_lt | apply Qlt_not_le].
Qed.

Lemma truthy_true (x : number) : truthy x = true <-> ~ x == 0.
Proof.
  unfold truthy. rewrite negb_true_iff, <- not_true_iff_false, Qeq_bool_iff.
  tauto.
Qed.

Lemma strict_eq_true (x y : number) : strict_eq x y = true <-> x == y.
Proof. apply Qeq_bool_iff. Qed.

Lemma strict_eq_false (x y : number) : strict_eq x y = false <-> ~ x == y.
Proof. unfold strict_eq. rewrite <- not_true_iff_false, Qeq_bool_iff. tauto. Qed.

(** ** The shape of [executeTrade] *)

Section LedgerFacts.

Variable parseFloat : string -> option number.

Local Abbreviation executeTrade := (executeTrade parseFloat).
Local Abbreviation priced_order := (priced_order parseFloat).
Local Abbreviation traded := (traded parseFloat).

Lemma priced_order_guards app q p :
  priced_order app q p ->
  negb (truthy q) || le q 0 = false /\
  negb (truthy p) = false /\
  negb (canTrade (prices (market app)) (selectedSymbol app)) = false.
Proof.
  intros (_ & Hq & pd & Hpd & <- & Hp & Ht). repeat split.
  - apply orb_false_iff. split.
    + apply negb_false_iff, truthy_true. intros H. rewrite H in Hq.
      now apply Qlt_irrefl in Hq.
    + now apply le_false.
  - now apply negb_false_iff, truthy_true.
  - unfold canTrade. rewrite Hpd. now apply negb_false_iff.
Qed.

Lemma executeTrade_buy clock app q p :
  priced_order app q p ->
  executeTrade "buy" clock app =
  if gt (q * p) (balance (store app)) then (app, ["Insufficient balance!"])
  else (setTradeAmount "" app (boughtStore clock app q p), []).
Proof.
  intros Ho. destruct (priced_order_guards _ _ _ Ho) as (Hq & Hp & Hc).
  destruct Ho as (Hparse & _ & pd & Hpd & <- & _).
  unfold executeTrade. rewrite Hparse, Hq, Hpd. simpl. rewrite Hp, Hc.
  reflexivity.
Qed.

Lemma executeTrade_sell type clock app q p :
  priced_order app q p -> type <> "buy" ->
  executeTrade type clock app =
  match holdings (store app) !! selectedSymbol app with
  | None => (app, ["Insufficient holdings!"])
  | Some h =>
    if lt (quantity h) q then (app, ["Insufficient holdings!"])
    else (setTradeAmount "" app (soldStore clock app h q p), [])
  end.
Proof.
  intros Ho Hty. destruct (priced_order_guards _ _ _ Ho) as (Hq & Hp & Hc).
  destruct Ho as (Hparse & _ & pd & Hpd & <- & _).
  apply String.eqb_neq in Hty.
  unfold executeTrade. rewrite Hparse, Hq, Hpd. simpl. rewrite Hp, Hc, Hty.
  destruct (holdings (store app) !! selectedSymbol app) as [h|] eqn:Hh;
    [|reflexivity].
  destruct (lt (quantity h) q); [reflexivity|].
  unfold soldStore, setHoldings, setTransactions, setBalance. simpl.
  destruct (strict_eq (quantity h) q); simpl; [reflexivity|].
  now rewrite Hh.
Qed.

(** A call that does not go through leaves the whole state as it was. *)
Lemma executeTrade_state type clock app :
  fst (executeTrade type clock app) = app \/
  exists tx, transactions (store (fst (executeTrade type clock app))) =
             tx :: transactions (store app).
Proof.
  unfold executeTrade.
  destruct (parseFloat (tradeAmount app)) as [q|]; [|now left].
  destruct (negb (truthy q) || le q 0); [now left|].
  destruct (price <$> prices (market app) !! selectedSymbol app) as [p|];
    [|now left].
  destruct (negb (truthy p)); [now left|].
  destruct (negb (canTrade _ _)); [now left|].
  destruct (String.eqb type "buy").
  - destruct (gt _ _); [now left|]. right. eexists. reflexivity.
  - destruct (holdings (store app) !! selectedSymbol app) as [h|]; [|now left].
    destruct (lt _ _); [now left|]. right.
    destruct (strict_eq _ _); eexists; reflexivity.
Qed.

Lemma cons_neq {A} (x : A) (l : list A) : l <> x :: l.
Proof. intros H. apply (f_equal (@length A)) in H. simpl in H. lia. Qed.

(** What a call that went through had passed. *)
Lemma traded_inv type clock app q p :
  traded type clock app q p ->
  priced_order app q p /\
  if String.eqb type "buy" then
    q * p <= balance (store app) /\
    fst (executeTrade type clock app) =
    setTradeAmount "" app (boughtStore clock app q p)
  else
    exists h, holdings (store app) !! selectedSymbol app = Some h /\
              q <= quantity h /\
              fst (executeTrade type clock app) =
              setTradeAmount "" app (soldStore clock app h q p).
Proof.
  unfold traded.
  destruct (parseFloat (tradeAmount app)) as [q'|] eqn:Hparse; cycle 1.
  { unfold executeTrade. rewrite Hparse. simpl. intros H.
    now apply cons_neq in H. }
  destruct (negb (truthy q') || le q' 0) eqn:Hq.
  { unfold executeTrade. rewrite Hparse, Hq. simpl. intros H.
    now apply cons_neq in H. }
  destruct (prices (market app) !! selectedSymbol app) as [pd|] eqn:Hpd; cycle 1.
  { unfold executeTrade. rewrite Hparse, Hq, Hpd. simpl. intros H.
    now apply cons_neq in H. }
  destruct (negb (truthy (price pd))) eqn:Hp.
  { unfold executeTrade. rewrite Hparse, Hq, Hpd. simpl. rewrite Hp. simpl.
    intros H. now apply cons_neq in H. }
  destruct (negb (canTrade (prices (market app)) (selectedSymbol app))) eqn:Hc.
  { unfold executeTrade. rewrite Hparse, Hq, Hpd. simpl. rewrite Hp, Hc. simpl.
    intros H. now apply cons_neq in H. }
  assert (Ho : priced_order app q' (price pd)).
  { apply orb_false_iff in Hq as [Hq1 Hq2].
    split; [exact Hparse|]. split; [now apply le_false|].
    exists pd. split; [exact Hpd|]. split; [reflexivity|]. split.
    - now apply truthy_true, negb_false_iff.
    - apply negb_false_iff in Hc. unfold canTrade in Hc. now rewrite Hpd in Hc. }
  destruct (String.eqb type "buy") eqn:Hty.
  - apply String.eqb_eq in Hty. subst type.
    rewrite (executeTrade_buy clock app q' (price pd) Ho).
    destruct (gt _ _) eqn:Hgt; simpl.
    { intros H. now apply cons_neq in H. }
    intros H. assert (q' = q) as -> by congruence.
    assert (price pd = p) as <- by congruence. clear H. split; [exact Ho|].
    split; [|reflexivity]. now apply lt_false.
  - apply String.eqb_neq in Hty.
    rewrite (executeTrade_sell type clock app q' (price pd) Ho Hty).
    destruct (holdings (store app) !! selectedSymbol app) as [h|] eqn:Hh; simpl.
    2:{ intros H. now apply cons_neq in H. }
    destruct (lt _ _) eqn:Hlt; simpl.
    { intros H. now apply cons_neq in H. }
    intros H. assert (q' = q) as -> by congruence.
    assert (price pd = p) as <- by congruence. clear H. split; [exact Ho|].
    exists h. split; [reflexivity|]. split; [|reflexivity]. now apply lt_false.
Qed.

End LedgerFacts.

(** ** Rejected trades *)

(** C3. Once the amount and the quote are accepted, a sell of more than is
    held (or of a symbol that is not held) is rejected with the
    insufficient-holdings alert, and a buy whose cost [q * p] exceeds the
    cash is rejected with the insufficient-balance alert; in both cases the
    whole state (cash, holdings and transaction log included) is returned
    as it was. *)
Theorem insufficient_funds_rejected (parseFloat : string -> option number)
    (clock : Clock) (app : App) (q p : number) :
  priced_order parseFloat app q p ->
  ((holdings (store app) !! selectedSymbol app = None \/
    exists h, holdings (store app) !! selectedSymbol app = Some h /\
              quantity h < q) ->
   executeTrade parseFloat "sell" clock app = (app, [InsufficientHoldings])) /\
  (balance (store app) < q * p ->
   executeTrade parseFloat "buy" clock app = (app, [InsufficientCash])).
Proof.
  intros Ho. split.
  - intros Hh. rewrite (executeTrade_sell _ _ _ _ _ _ Ho) by discriminate.
    destruct Hh as [-> | (h & -> & Hlt)]; [reflexivity|].
    apply lt_true in Hlt. now rewrite Hlt.
  - intros Hb. rewrite (executeTrade_buy _ _ _ _ _ Ho).
    apply lt_true in Hb. unfold gt. now rewrite Hb.
Qed.

Lemma insufficient_funds_rejected_witness :
  let app := mkApp initialStore (quoteAt "BTC" 50000) "BTC" "3" in
  priced_order parseUnsigned app 3 50000 /\
  executeTrade parseUnsigned "sell" (mkClock 1 "t") app =
    (app, [InsufficientHoldings]) /\
  executeTrade parseUnsigned "buy" (mkClock 1 "t") app =
    (app, [InsufficientCash]).
Proof.
  intros app.
  assert (Ho : priced_order parseUnsigned app 3 50000).
  { split; [reflexivity|]. split; [reflexivity|].
    eexists. split; [reflexivity|]. split; [reflexivity|].
    split; [discriminate | reflexivity]. }
  split; [exact Ho|].
  destruct (insufficient_funds_rejected parseUnsigned (mkClock 1 "t") app
              3 50000 Ho) as [Hs Hb].
  split; [apply Hs; left; reflexivity | apply Hb; reflexivity].
Defined.

(** ** Sells *)

(** C4. A sell of [q] units at price [p] that goes through adds exactly
    [q * p] to the cash.  If the quantity left is zero the symbol leaves the
    holdings mapping; otherwise its holding keeps its average cost and only
    its quantity drops by [q].  The holdings of the other symbols are as
    before. *)
Theorem sell_effect (parseFloat : string -> option number) (clock : Clock)
    (app : App) (q p : number) :
  traded parseFloat "sell" clock app q p ->
  let before := store app in
  let after := store (fst (executeTrade parseFloat "sell" clock app)) in
  balance after = balance before + q * p /\
  exists h, holdings before !! selectedSymbol app = Some h /\
    (quantity h - q == 0 -> holdings after !! selectedSymbol app = None) /\
    (~ quantity h - q == 0 ->
     holdings after !! selectedSymbol app =
     Some {| quantity := quantity h - q; avgCost := avgCost h |}) /\
    (forall s, s <> selectedSymbol app ->
               holdings after !! s = holdings before !! s).
Proof.
  intros Ht. apply traded_inv in Ht as (_ & h & Hh & _ & ->). simpl.
  split; [reflexivity|]. exists h. split; [exact Hh|].
  destruct (strict_eq (quantity h) q) eqn:He.
  - apply strict_eq_true in He. repeat split.
    + intros _. apply lookup_delete_eq.
    + intros Hne. exfalso. apply Hne. rewrite He. ring.
    + intros s Hs. now apply lookup_delete_ne.
  - apply strict_eq_false in He. repeat split.
    + intros Hz. exfalso. apply He. lra.
    + intros _. apply lookup_insert_eq.
    + intros s Hs. now apply lookup_insert_ne.
Qed.

Lemma sell_effect_witness :
  let held := {| balance := 70000;
                 holdings := {["BTC" := {| quantity := 3; avgCost := 10000 |}]};
                 transactions := [] |} in
  let app := mkApp held (quoteAt "BTC" 20000) "BTC" "1" in
  let after := store (fst (executeTrade parseUnsigned "sell" (mkClock 1 "t") app)) in
  traded parseUnsigned "sell" (mkClock 1 "t") app 1 20000 /\
  balance after = 70000 + 1 * 20000 /\
  holdings after !! "BTC" = Some {| quantity := 3 - 1; avgCost := 10000 |}.
Proof.
  intros held app after.
  assert (Ht : traded parseUnsigned "sell" (mkClock 1 "t") app 1 20000)
    by reflexivity.
  split; [exact Ht|].
  destruct (sell_effect parseUnsigned (mkClock 1 "t") app 1 20000 Ht)
    as (Hb & h & Hh & _ & Hkeep & _).
  split; [exact Hb|].
  injection Hh as <-. apply Hkeep. discriminate.
Defined.

(** ** Silent and alerted rejections *)

Section Rejections.

Variable parseFloat : string -> option number.

Local Abbreviation executeTrade := (executeTrade parseFloat).

(** A call either goes through or leaves the state as it was. *)
Lemma executeTrade_outcome type clock app :
  fst (executeTrade type clock app) = app \/
  exists q p, traded parseFloat type clock app q p.
Proof.
  unfold traded, executeTrade.
  destruct (parseFloat (tradeAmount app)) as [q|]; [|now left].
  destruct (negb (truthy q) || le q 0); [now left|].
  destruct (price <$> prices (market app) !! selectedSymbol app) as [p|];
    [|now left].
  destruct (negb (truthy p)); [now left|].
  destruct (negb (canTrade _ _)); [now left|].
  destruct (String.eqb type "buy").
  - destruct (gt _ _); [now left|]. right. exists q, p. reflexivity.
  - destruct (holdings (store app) !! selectedSymbol app) as [h|]; [|now left].
    destruct (lt _ _); [now left|]. right. exists q, p.
    destruct (strict_eq _ _); reflexivity.
Qed.

(** The two guards that return without an alert. *)
Lemma silent_guards type clock app :
  invalid_amount parseFloat app \/ unpriced app ->
  executeTrade type clock app = (app, []).
Proof.
  unfold invalid_amount, unpriced, executeTrade.
  destruct (parseFloat (tradeAmount app)) as [q|]; [|reflexivity].
  destruct (negb (truthy q) || le q 0) eqn:Hq; [reflexivity|].
  apply orb_false_iff in Hq as [_ Hq]. apply le_false in Hq.
  intros [Hle | Hp]; [lra|].
  destruct (prices (market app) !! selectedSymbol app) as [pd|]; [|reflexivity].
  simpl. destruct (truthy (price pd)) eqn:Ht; [|reflexivity].
  apply truthy_true in Ht. contradiction.
Qed.

(** The alert of a call that got past the two silent guards and did not
    go through. *)
Lemma alerted_guards type clock app :
  ~ (invalid_amount parseFloat app \/ unpriced app) ->
  fst (executeTrade type clock app) = app ->
  snd (executeTrade type clock app) =
  [if negb (canTrade (prices (market app)) (selectedSymbol app))
   then UntradeableSymbol
   else if String.eqb type "buy" then InsufficientCash
        else InsufficientHoldings].
Proof.
  unfold invalid_amount, unpriced, executeTrade. intros Hn.
  destruct (parseFloat (tradeAmount app)) as [q|]; [|tauto].
  destruct (negb (truthy q) || le q 0) eqn:Hq.
  { exfalso. apply Hn. left. apply orb_true_iff in Hq as [Hq | Hq].
    - apply negb_true_iff in Hq. unfold truthy in Hq.
      apply negb_false_iff, Qeq_bool_iff in Hq. rewrite Hq. apply Qle_refl.
    - now apply le_true. }
  destruct (prices (market app) !! selectedSymbol app) as [pd|]; [|tauto].
  simpl. destruct (negb (truthy (price pd))) eqn:Hp.
  { exfalso. apply Hn. right. apply negb_true_iff in Hp. unfold truthy in Hp.
    now apply negb_false_iff, Qeq_bool_iff in Hp. }
  destruct (negb (canTrade _ _)); [reflexivity|].
  destruct (String.eqb type "buy").
  - destruct (gt _ _); [reflexivity|]. simpl. intros H.
    apply (f_equal (fun a => transactions (store a))) in H. simpl in H.
    symmetry in H. now apply cons_neq in H.
  - destruct (holdings (store app) !! selectedSymbol app) as [h|]; [|reflexivity].
    destruct (lt _ _); [reflexivity|]. simpl. intros H.
    apply (f_equal (fun a => transactions (store a))) in H.
    destruct (strict_eq _ _); simpl in H;
      symmetry in H; now apply cons_neq in H.
Qed.

End Rejections.

(** C10, as the code has it.  A call that does not go through leaves the
    state as it was.  It returns without any alert when the amount does not
    parse to a number above zero or the selected symbol has no price; past
    these two guards it alerts exactly one message: that trading is
    unavailable when the quote is not tradeable, otherwise that the balance
    (for a buy) or the holdings (for a sell) are insufficient. *)
Theorem rejection_alerts (parseFloat : string -> option number)
    (type : string) (clock : Clock) (app : App) :
  (~ exists q p, traded parseFloat type clock app q p) ->
  let r := executeTrade parseFloat type clock app in
  fst r = app /\
  (invalid_amount parseFloat app \/ unpriced app -> snd r = []) /\
  (~ (invalid_amount parseFloat app \/ unpriced app) ->
   snd r =
   [if negb (canTrade (prices (market app)) (selectedSymbol app))
    then UntradeableSymbol
    else if String.eqb type "buy" then InsufficientCash
         else InsufficientHoldings]).
Proof.
  intros Hfail r.
  destruct (executeTrade_outcome parseFloat type clock app) as [Hsame | Ht];
    [|contradiction].
  split; [exact Hsame|]. split.
  - intros Hg. unfold r. now rewrite silent_guards.
  - intros Hn. now apply alerted_guards.
Qed.

Lemma rejection_alerts_witness :
  let app := mkApp initialStore (quoteAt "BTC" 50000) "BTC" "3" in
  let r := executeTrade parseUnsigned "buy" (mkClock 1 "t") app in
  (~ exists q p, traded parseUnsigned "buy" (mkClock 1 "t") app q p) /\
  fst r = app /\ snd r = [InsufficientCash].
Proof.
  intros app r.
  assert (Hfail : ~ exists q p, traded parseUnsigned "buy" (mkClock 1 "t") app q p).
  { intros (q & p & Ht). unfold traded in Ht. vm_compute in Ht. discriminate Ht. }
  split; [exact Hfail|].
  destruct (rejection_alerts parseUnsigned "buy" (mkClock 1 "t") app Hfail)
    as (Hsame & _ & Halert).
  split; [exact Hsame|].
  apply Halert. intros [H | H]; vm_compute in H; [|discriminate H].
  now apply H.
Defined.

(** C10, as stated, fails: with an empty amount field ([parseFloat] gives
    [NaN]), with the amount [0], and with a symbol that has no quote, the
    call changes nothing and alerts nothing. *)
Lemma rejection_is_silent_counterexample :
  silent_noop parseUnsigned "buy" (mkClock 1 "t")
    (mkApp initialStore (quoteAt "BTC" 50000) "BTC" "") /\
  silent_noop parseUnsigned "sell" (mkClock 1 "t")
    (mkApp initialStore (quoteAt "BTC" 50000) "BTC" "0") /\
  silent_noop parseUnsigned "buy" (mkClock 1 "t")
    (mkApp initialStore (quoteAt "BTC" 50000) "ETH" "1").
Proof. repeat split. Qed.

(** ** Buys *)

(** C2. A buy of [q] units at price [p] that goes through sets the average
    cost of the holding to exactly [p] when the symbol was not held, and to
    [((a * q1) + q * p) / (q1 + q)] when a holding of quantity [q1] and
    average cost [a] existed.  So a buy of [q] at [p] into an empty position
    followed by a buy of [q2] at [p2] leaves the holding with quantity
    [q + q2] and average cost [(q * p + q2 * p2) / (q + q2)]. *)
Theorem buy_average_cost (parseFloat : string -> option number)
    (clock : Clock) (app : App) (q p : number) :
  traded parseFloat "buy" clock app q p ->
  let sym := selectedSymbol app in
  let bought := store (fst (executeTrade parseFloat "buy" clock app)) in
  (holdings (store app) !! sym = None ->
   avgCost <$> holdings bought !! sym = Some p) /\
  (forall h, holdings (store app) !! sym = Some h ->
   avgCost <$> holdings bought !! sym =
   Some (((avgCost h * quantity h) + q * p) / (quantity h + q))) /\
  (forall clock2 app2 q2 p2,
   holdings (store app) !! sym = None ->
   store app2 = bought -> selectedSymbol app2 = sym ->
   traded parseFloat "buy" clock2 app2 q2 p2 ->
   exists h,
     holdings (store (fst (executeTrade parseFloat "buy" clock2 app2))) !! sym
     = Some h /\
     quantity h == q + q2 /\
     avgCost h == (q * p + q2 * p2) / (q + q2)).
Proof.
  intros Ht sym bought.
  apply traded_inv in Ht as ((_ & Hq & _) & _ & Hfst). simpl in Hfst.
  assert (Hb : holdings bought !! sym =
               Some (boughtHolding (holdings (store app)) sym q p (q * p))).
  { unfold bought. rewrite Hfst. simpl. apply lookup_insert_eq. }
  split; [|split].
  - intros Hnone. rewrite Hb. unfold boughtHolding. now rewrite Hnone.
  - intros h Hh. rewrite Hb. unfold boughtHolding. now rewrite Hh.
  - intros clock2 app2 q2 p2 Hnone Hstore Hsym Ht2.
    apply traded_inv in Ht2 as ((_ & Hq2 & _) & _ & Hfst2). simpl in Hfst2.
    rewrite Hfst2. simpl. rewrite Hsym, lookup_insert_eq. eexists.
    split; [reflexivity|].
    unfold boughtHolding at 1 2. rewrite Hstore, Hb. simpl.
    unfold boughtHolding. rewrite Hnone. simpl.
    assert (Ht : truthy (0 + q) = true) by (apply truthy_true; lra).
    rewrite Ht. split; [ring|]. field. lra.
Qed.

Lemma buy_average_cost_witness :
  let clock := mkClock 1 "t1" in
  let app := mkApp initialStore (quoteAt "BTC" 30000) "BTC" "1" in
  let bought := store (fst (executeTrade parseUnsigned "buy" clock app)) in
  let app2 := mkApp bought (quoteAt "BTC" 20000) "BTC" "2" in
  traded parseUnsigned "buy" clock app 1 30000 /\
  avgCost <$> holdings bought !! "BTC" = Some 30000 /\
  exists h,
    holdings (store (fst (executeTrade parseUnsigned "buy" (mkClock 2 "t2") app2)))
      !! "BTC" = Some h /\
    quantity h == 1 + 2 /\
    avgCost h == (1 * 30000 + 2 * 20000) / (1 + 2).
Proof.
  intros clock app bought app2.
  assert (Ht : traded parseUnsigned "buy" clock app 1 30000) by reflexivity.
  split; [exact Ht|].
  destruct (buy_average_cost parseUnsigned clock app 1 30000 Ht)
    as (Hfirst & _ & Hlaw).
  split; [apply Hfirst; reflexivity|].
  apply (Hlaw (mkClock 2 "t2") app2 2 20000); reflexivity.
Defined.

(** ** The ledger invariant *)




Section Invariant.

Variable parseFloat : string -> option number.

Local Abbreviation step := (step parseFloat).
Local Abbreviation run := (run parseFloat).

(** A call is one of three things for the portfolio: nothing, a buy that
    went through, or a sell that went through. *)
Lemma step_cases s c :
  let app := mkApp s (call_market c) (call_symbol c) (call_amount c) in
  step s c = s \/
  (exists q p, priced_order parseFloat app q p /\ q * p <= balance s /\
               step s c = boughtStore (call_clock c) app q p) \/
  (exists q p h, priced_order parseFloat app q p /\
                 holdings s !! call_symbol c = Some h /\ q <= quantity h /\
                 step s c = soldStore (call_clock c) app h q p).
Proof.
  intros app. unfold step. fold app.
  destruct (executeTrade_outcome parseFloat (call_type c) (call_clock c) app)
    as [-> | (q & p & Ht)]; [now left|].
  right. apply traded_inv in Ht as (Ho & Ht).
  destruct (String.eqb (call_type c) "buy").
  - left. destruct Ht as (Hle & ->). now exists q, p.
  - right. destruct Ht as (h & Hh & Hle & ->). now exists q, p, h.
Qed.





End Invariant.





(** ** Cash and cost basis *)

Section CashReplay.

Variable parseFloat : string -> option number.




End CashReplay.



(** ** The locals of a tick *)

Lemma fold_setError_prices msg l acc :
  newPrices (fold_left (setError msg) l acc) = newPrices acc.
Proof.
  revert acc. induction l as [|a l IH]; intros acc; [reflexivity|].
  simpl. now rewrite IH.
Qed.

Lemma fold_setError_errors msg l acc s :
  newErrors (fold_left (setError msg) l acc) !! s =
  if bool_decide (s ∈ l) then Some msg else newErrors acc !! s.
Proof.
  revert acc. induction l as [|a l IH]; intros acc; cbn [fold_left].
  - rewrite bool_decide_eq_false_2; [reflexivity | apply not_elem_of_nil].
  - rewrite IH. cbn [setError newErrors]. destruct (decide (s ∈ l)) as [Hin | Hnin].
    + rewrite !bool_decide_eq_true_2; [reflexivity | now right | exact Hin].
    + rewrite (bool_decide_eq_false_2 _ Hnin).
      destruct (decide (a = s)) as [-> | Hne].
      * rewrite lookup_insert_eq.
        rewrite bool_decide_eq_true_2; [reflexivity | now left].
      * rewrite lookup_insert_ne by exact Hne.
        rewrite bool_decide_eq_false_2; [reflexivity|].
        intros [-> | Hin]%elem_of_cons; contradiction.
Qed.

Lemma fold_quote_prices data clock l acc s :
  newPrices (fold_left (quoteSymbol data clock) l acc) !! s =
  match usdOf data (coinId s) with
  | Some u =>
    if bool_decide (s ∈ l) then Some (freshQuote data clock s u)
    else newPrices acc !! s
  | None => newPrices acc !! s
  end.
Proof.
  revert acc. induction l as [|a l IH]; intros acc; cbn [fold_left].
  - rewrite bool_decide_eq_false_2 by apply not_elem_of_nil.
    now destruct (usdOf data (coinId s)).
  - rewrite IH. unfold quoteSymbol.
    destruct (decide (a = s)) as [-> | Hne].
    + destruct (usdOf data (coinId s)) as [u|]; simpl; [|reflexivity].
      rewrite lookup_insert_eq.
      rewrite (bool_decide_eq_true_2 (s ∈ s :: l)) by now left.
      now destruct (bool_decide (s ∈ l)).
    + assert (Hl : bool_decide (s ∈ a :: l) = bool_decide (s ∈ l)).
      { apply bool_decide_ext. rewrite elem_of_cons.
        split; [intros [E | H]; [now symmetry in E | exact H] | now right]. }
      rewrite Hl.
      destruct (usdOf data (coinId a)); simpl;
        rewrite ?lookup_insert_ne by exact Hne; reflexivity.
Qed.

Lemma fold_quote_errors data clock l acc s :
  newErrors (fold_left (quoteSymbol data clock) l acc) !! s =
  match usdOf data (coinId s) with
  | Some _ => newErrors acc !! s
  | None =>
    if bool_decide (s ∈ l) then Some "Data Unavailable"
    else newErrors acc !! s
  end.
Proof.
  revert acc. induction l as [|a l IH]; intros acc; cbn [fold_left].
  - rewrite bool_decide_eq_false_2 by apply not_elem_of_nil.
    now destruct (usdOf data (coinId s)).
  - rewrite IH. unfold quoteSymbol.
    destruct (decide (a = s)) as [-> | Hne].
    + destruct (usdOf data (coinId s)) as [u|]; simpl; [reflexivity|].
      rewrite lookup_insert_eq.
      rewrite (bool_decide_eq_true_2 (s ∈ s :: l)) by now left.
      now destruct (bool_decide (s ∈ l)).
    + assert (Hl : bool_decide (s ∈ a :: l) = bool_decide (s ∈ l)).
      { apply bool_decide_ext. rewrite elem_of_cons.
        split; [intros [E | H]; [now symmetry in E | exact H] | now right]. }
      rewrite Hl.
      destruct (usdOf data (coinId a)); simpl;
        rewrite ?lookup_insert_ne by exact Hne; reflexivity.
Qed.

Lemma fetched_fold symbols clock response :
  fetched symbols clock response =
  match response with
  | HttpOk data => fold_left (quoteSymbol data clock) (cryptoSymbols symbols) noFresh
  | HttpError _ => fold_left (setError "API Error") (cryptoSymbols symbols) noFresh
  | NetworkFailure =>
    fold_left (setError "Network Error") (cryptoSymbols symbols) noFresh
  end.
Proof.
  unfold fetched. destruct (cryptoSymbols symbols); [|reflexivity].
  now destruct response.
Qed.

Lemma fetched_failed_prices symbols clock response :
  (forall data, response <> HttpOk data) ->
  newPrices (fetched symbols clock response) = ∅.
Proof.
  intros Hr. rewrite fetched_fold. destruct response as [| status | data].
  - apply fold_setError_prices.
  - apply fold_setError_prices.
  - now destruct (Hr data).
Qed.

(** What a tick holds in [newPrices] for a symbol. *)
Lemma fetched_prices symbols clock response s :
  newPrices (fetched symbols clock response) !! s =
  match response with
  | HttpOk data =>
    match usdOf data (coinId s) with
    | Some u =>
      if bool_decide (s ∈ cryptoSymbols symbols)
      then Some (freshQuote data clock s u) else None
    | None => None
    end
  | _ => None
  end.
Proof.
  destruct response as [| status | data].
  - now rewrite fetched_failed_prices.
  - now rewrite fetched_failed_prices.
  - rewrite fetched_fold, fold_quote_prices. simpl. rewrite lookup_empty.
    now destruct (usdOf data (coinId s)).
Qed.

(** What a tick holds in [newErrors] for a symbol. *)
Lemma fetched_errors symbols clock response s :
  newErrors (fetched symbols clock response) !! s =
  if bool_decide (s ∈ cryptoSymbols symbols) then
    match response with
    | NetworkFailure => Some "Network Error"
    | HttpError _ => Some "API Error"
    | HttpOk data =>
      match usdOf data (coinId s) with
      | Some _ => None
      | None => Some "Data Unavailable"
      end
    end
  else None.
Proof.
  rewrite fetched_fold. destruct response as [| status | data].
  - rewrite fold_setError_errors. simpl. rewrite lookup_empty. reflexivity.
  - rewrite fold_setError_errors. simpl. rewrite lookup_empty. reflexivity.
  - rewrite fold_quote_errors. simpl. rewrite lookup_empty.
    destruct (usdOf data (coinId s)); now destruct (bool_decide _).
Qed.

Lemma fetched_tradeable symbols clock response s pd :
  newPrices (fetched symbols clock response) !! s = Some pd ->
  tradeable pd = true.
Proof.
  rewrite fetched_prices. destruct response as [| status | data]; try discriminate.
  destruct (usdOf data (coinId s)); [|discriminate].
  destruct (bool_decide _); [|discriminate]. now intros [= <-].
Qed.

Lemma fetched_quoted_no_error symbols clock response s :
  is_Some (newPrices (fetched symbols clock response) !! s) ->
  newErrors (fetched symbols clock response) !! s = None.
Proof.
  rewrite fetched_prices, fetched_errors. intros [pd Hpd].
  destruct response as [| status | data]; try discriminate.
  destruct (usdOf data (coinId s)); [|discriminate].
  now destruct (bool_decide _).
Qed.

(** ** The state after a tick *)

(** A request that fails, either way, changes nothing. *)
Lemma fetchCryptoPrices_failed symbols clock response m :
  (forall data, response <> HttpOk data) ->
  fetchCryptoPrices symbols clock response m = m.
Proof.
  intros Hr. unfold fetchCryptoPrices.
  rewrite (fetched_failed_prices _ _ _ Hr), map_size_empty.
  reflexivity.
Qed.

Lemma tick_prices m t s :
  prices (tick m t) !! s =
  match newPrices (fetched (tick_symbols t) (tick_clock t) (tick_response t)) !! s with
  | Some pd => Some pd
  | None => prices m !! s
  end.
Proof.
  unfold tick, fetchCryptoPrices. case_bool_decide as Hsize; simpl.
  - unfold spread. rewrite lookup_union.
    destruct (newPrices _ !! s), (prices m !! s); reflexivity.
  - assert (Hempty : newPrices (fetched (tick_symbols t) (tick_clock t)
                                  (tick_response t)) = ∅)
      by (apply map_size_empty_inv; lia).
    now rewrite Hempty, lookup_empty.
Qed.

Lemma tick_apiError m t s :
  let fresh := fetched (tick_symbols t) (tick_clock t) (tick_response t) in
  apiError (tick m t) !! s =
  if bool_decide (0 < size (newPrices fresh))%nat then
    match newErrors fresh !! s with
    | Some e => Some e
    | None => apiError m !! s
    end
  else apiError m !! s.
Proof.
  unfold tick, fetchCryptoPrices. simpl. case_bool_decide as Hsize; simpl;
    [|reflexivity].
  unfold spread. rewrite lookup_union.
  destruct (newErrors _ !! s), (apiError m !! s); reflexivity.
Qed.

Lemma quoted_true t s :
  quoted t s = true <->
  is_Some (newPrices (fetched (tick_symbols t) (tick_clock t) (tick_response t)) !! s).
Proof. unfold quoted. apply bool_decide_eq_true. Qed.

Lemma quoted_false t s :
  quoted t s = false <->
  newPrices (fetched (tick_symbols t) (tick_clock t) (tick_response t)) !! s = None.
Proof.
  unfold quoted. rewrite bool_decide_eq_false, <- eq_None_not_Some. tauto.
Qed.

Lemma canTrade_tick m t s :
  canTrade (prices (tick m t)) s = quoted t s || canTrade (prices m) s.
Proof.
  unfold canTrade at 1. rewrite tick_prices.
  destruct (quoted t s) eqn:Hq.
  - apply quoted_true in Hq as [pd Hpd]. rewrite Hpd.
    now apply fetched_tradeable in Hpd.
  - apply quoted_false in Hq. now rewrite Hq.
Qed.

Lemma canTrade_poll ticks m s :
  canTrade (prices (poll ticks m)) s =
  existsb (fun t => quoted t s) ticks || canTrade (prices m) s.
Proof.
  revert m. induction ticks as [|t ticks IH]; intros m; [reflexivity|].
  simpl. rewrite IH, canTrade_tick.
  now destruct (quoted t s), (existsb _ ticks).
Qed.

Lemma poll_snoc ticks t m : poll (ticks ++ [t]) m = tick (poll ticks m) t.
Proof. unfold poll. now rewrite fold_left_app. Qed.

(** ** Tradeability *)

(** C6, as the code has it.  At every point of a session a symbol is
    tradeable if and only if some tick of the session so far produced a
    successful quote for it.  A tick that produces no quote for the symbol
    (its quote errors, or the request fails) leaves the cached price in
    place, and leaves the symbol as tradeable as it was. *)
Theorem tradeable_once_quoted (ticks : list Tick) (s : string) :
  (canTrade (prices (poll ticks initialMarket)) s = true <->
   exists t, t ∈ ticks /\ quoted t s = true) /\
  (forall t, quoted t s = false ->
   prices (poll (ticks ++ [t]) initialMarket) !! s =
   prices (poll ticks initialMarket) !! s /\
   canTrade (prices (poll (ticks ++ [t]) initialMarket)) s =
   canTrade (prices (poll ticks initialMarket)) s).
Proof.
  split.
  - rewrite canTrade_poll. unfold canTrade at 1. simpl. rewrite lookup_empty.
    rewrite orb_false_r, existsb_exists.
    split; intros (t & Hin & Hq); exists t; (split; [|exact Hq]);
      now apply list_elem_of_In.
  - intros t Hq. rewrite poll_snoc. split.
    + rewrite tick_prices. apply quoted_false in Hq. now rewrite Hq.
    + now rewrite canTrade_tick, Hq.
Qed.

Lemma tradeable_once_quoted_witness :
  let ticks := [answered ["BTC"] 1 [("bitcoin", 5)]] in
  let t := failing ["BTC"] 2 NetworkFailure in
  quoted t "BTC" = false /\
  canTrade (prices (poll ticks initialMarket)) "BTC" = true /\
  canTrade (prices (poll (ticks ++ [t]) initialMarket)) "BTC" =
  canTrade (prices (poll ticks initialMarket)) "BTC".
Proof.
  intros ticks t.
  destruct (tradeable_once_quoted ticks "BTC") as [Hiff Hkeep].
  split; [reflexivity|]. split.
  - apply Hiff. exists (answered ["BTC"] 1 [("bitcoin", 5)]).
    split; [now left | reflexivity].
  - apply Hkeep. reflexivity.
Defined.

(** C6, as stated, fails: BTC is quoted at tick 1 and the request of tick 2
    fails.  The most recent tick produced no quote for BTC (it built the
    error for it), the price of tick 1 is still cached, and BTC is still
    tradeable. *)
Lemma stale_quote_tradeable_counterexample :
  let t1 := answered ["BTC"] 1 [("bitcoin", 5)] in
  let t2 := failing ["BTC"] 2 NetworkFailure in
  let m := poll [t1; t2] initialMarket in
  quoted t2 "BTC" = false /\
  newErrors (fetched (tick_symbols t2) (tick_clock t2) (tick_response t2))
    !! "BTC" = Some "Network Error" /\
  price <$> prices m !! "BTC" = Some 5 /\
  canTrade (prices m) "BTC" = true.
Proof. repeat split. Qed.

(** ** Request failures *)

(** X14. What does hold of the three tiers: an [ok] response that prices
    [s2] and not [s1] records the error for [s1] alone and the quote for
    [s2], and leaves the error entry of [s2] as it was. *)
Lemma partial_response_recorded symbols clock data m s1 s2 u :
  s1 ∈ cryptoSymbols symbols -> s2 ∈ cryptoSymbols symbols ->
  usdOf data (coinId s1) = None -> usdOf data (coinId s2) = Some u ->
  let m' := fetchCryptoPrices symbols clock (HttpOk data) m in
  apiError m' !! s1 = Some "Data Unavailable" /\
  prices m' !! s2 = Some (freshQuote data clock s2 u) /\
  apiError m' !! s2 = apiError m !! s2.
Proof.
  intros H1 H2 Hu1 Hu2 m'.
  pose (t := mkTick symbols clock (HttpOk data)).
  assert (Hp2 : newPrices (fetched symbols clock (HttpOk data)) !! s2 =
                Some (freshQuote data clock s2 u)).
  { rewrite fetched_prices, Hu2. now rewrite bool_decide_eq_true_2. }
  assert (Hsize : (0 < size (newPrices (fetched symbols clock (HttpOk data))))%nat).
  { destruct (size _) eqn:Hs; [|lia].
    apply map_size_empty_inv in Hs. rewrite Hs in Hp2. discriminate. }
  change m' with (tick m t). repeat split.
  - rewrite tick_apiError. simpl. rewrite bool_decide_eq_true_2 by exact Hsize.
    rewrite fetched_errors, Hu1. now rewrite bool_decide_eq_true_2.
  - rewrite tick_prices. simpl. now rewrite Hp2.
  - rewrite tick_apiError. simpl. rewrite bool_decide_eq_true_2 by exact Hsize.
    rewrite fetched_errors, Hu2. now destruct (bool_decide _).
Qed.

(** C7, on the code.  When the request for BTC and ETH fails in transport,
    or comes back with a status that is not [ok], the run builds the error
    of every requested symbol in its local [newErrors], and then, for want
    of any new price, calls no setter: the market data, [apiError] included,
    is what it was, and neither error is recorded. *)
Theorem failed_request_unrecorded :
  let symbols := ["BTC"; "ETH"] in
  let clock := mkClock 1 "" in
  (newErrors (fetched symbols clock NetworkFailure) !! "BTC" = Some "Network Error" /\
   newErrors (fetched symbols clock NetworkFailure) !! "ETH" = Some "Network Error" /\
   fetchCryptoPrices symbols clock NetworkFailure initialMarket = initialMarket /\
   apiError (fetchCryptoPrices symbols clock NetworkFailure initialMarket) !! "BTC"
   = None) /\
  (newErrors (fetched symbols clock (HttpError 429)) !! "BTC" = Some "API Error" /\
   newErrors (fetched symbols clock (HttpError 429)) !! "ETH" = Some "API Error" /\
   fetchCryptoPrices symbols clock (HttpError 429) initialMarket = initialMarket /\
   apiError (fetchCryptoPrices symbols clock (HttpError 429) initialMarket) !! "BTC"
   = None).
Proof. repeat split. Qed.

(** ** Recorded errors *)

(** No tick removes an entry of [apiError]: the setter only ever merges
    the errors of the tick into the ones it finds.  In particular the tick
    that brings a quote for a symbol leaves the error recorded for that
    symbol where it was. *)
Lemma errors_persist (m : MarketData) (t : Tick) (s : string) :
  (quoted t s = true -> apiError (tick m t) !! s = apiError m !! s) /\
  (is_Some (apiError m !! s) -> is_Some (apiError (tick m t) !! s)).
Proof.
  split.
  - intros Hq. apply quoted_true in Hq.
    rewrite tick_apiError. simpl.
    rewrite (fetched_quoted_no_error _ _ _ _ Hq). now destruct (bool_decide _).
  - intros He. rewrite tick_apiError. simpl.
    destruct (bool_decide _); [|exact He].
    destruct (newErrors _ !! s); [eauto | exact He].
Qed.

(** C8, on the code.  Tick 1 prices BTC and not ETH, so ETH gets the error
    "Data Unavailable"; tick 2 prices both.  The run of tick 2 builds no
    error for ETH and stores its fresh quote, and yet after it [apiError]
    still holds the error of tick 1 for ETH: the error is not cleared when
    the successful quote arrives, and is shown beside the fresh price. *)
Theorem stale_error_survives_quote :
  let t1 := answered ["BTC"; "ETH"] 1 [("bitcoin", 5)] in
  let t2 := answered ["BTC"; "ETH"] 2 [("bitcoin", 6); ("ethereum", 7)] in
  apiError (poll [t1] initialMarket) !! "ETH" = Some "Data Unavailable" /\
  quoted t2 "ETH" = true /\
  newErrors (fetched (tick_symbols t2) (tick_clock t2) (tick_response t2))
    !! "ETH" = None /\
  price <$> prices (poll [t1; t2] initialMarket) !! "ETH" = Some 7 /\
  apiError (poll [t1; t2] initialMarket) !! "ETH" = Some "Data Unavailable".
Proof. repeat split. Qed.

(** ** The price history *)

Lemma slice_last_short {A} (n : nat) (l : list A) :
  (length l <= n)%nat -> slice_last n l = l.
Proof.
  intros Hl. unfold slice_last.
  replace (length l - n)%nat with 0%nat by lia. reflexivity.
Qed.

Lemma slice_last_length {A} (n : nat) (l : list A) :
  (length (slice_last n l) <= n)%nat.
Proof. unfold slice_last. rewrite length_drop. lia. Qed.

(** Appending to a full series drops its head and nothing else. *)
Lemma slice_last_full {A} (n : nat) (x y : A) (l : list A) :
  length (x :: l) = n -> slice_last n ((x :: l) ++ [y]) = l ++ [y].
Proof.
  intros Hl. unfold slice_last. rewrite length_app, Hl. simpl.
  replace (n + 1 - n)%nat with 1%nat by lia. reflexivity.
Qed.

Section HistoryFacts.

Variable toLocaleTimeString : Z -> string.

Local Abbreviation newPoint := (newPoint toLocaleTimeString).
Local Abbreviation recordHistory := (recordHistory toLocaleTimeString).
Local Abbreviation observe := (observe toLocaleTimeString).
Local Abbreviation session := (session toLocaleTimeString).

(** The series of a symbol after the effect. *)
Lemma recordHistory_lookup now m s :
  chartData (recordHistory now m) !! s =
  match prices m !! s with
  | Some pd =>
    if gt (price pd) 0
    then Some (slice_last 100 (default [] (chartData m !! s) ++ [newPoint now pd]))
    else chartData m !! s
  | None => chartData m !! s
  end.
Proof.
  unfold recordHistory. case_bool_decide as Hsize.
  { apply map_size_empty_inv in Hsize. now rewrite Hsize, lookup_empty. }
  simpl. revert s.
  apply (map_fold_weak_ind
    (fun acc (pm : gmap string PriceData) => forall s,
       acc !! s =
       match pm !! s with
       | Some pd =>
         if gt (price pd) 0
         then Some (slice_last 100
                      (default [] (chartData m !! s) ++ [newPoint now pd]))
         else chartData m !! s
       | None => chartData m !! s
       end)).
  - intros s. now rewrite lookup_empty.
  - intros i pd pm acc Hi IH s. destruct (decide (i = s)) as [-> | Hne].
    + rewrite lookup_insert_eq. specialize (IH s). rewrite Hi in IH.
      destruct (gt (price pd) 0); [|exact IH].
      unfold appendPoint. now rewrite lookup_insert_eq, IH.
    + rewrite (lookup_insert_ne pm) by exact Hne. rewrite <- IH.
      destruct (gt (price pd) 0); [|reflexivity].
      unfold appendPoint. now rewrite lookup_insert_ne.
Qed.

Lemma recordHistory_capped now m :
  history_capped (chartData m) -> history_capped (chartData (recordHistory now m)).
Proof.
  intros Hm s l. rewrite recordHistory_lookup.
  destruct (prices m !! s) as [pd|]; [|apply Hm].
  destruct (gt (price pd) 0); [|apply Hm].
  intros [= <-]. apply slice_last_length.
Qed.

Lemma tick_chartData m t : chartData (tick m t) = chartData m.
Proof. unfold tick, fetchCryptoPrices. now destruct (bool_decide _). Qed.

Lemma observe_capped m e :
  history_capped (chartData m) -> history_capped (chartData (observe m e)).
Proof.
  intros Hm. unfold observe. destruct (bool_decide _).
  - apply recordHistory_capped. now rewrite tick_chartData.
  - now rewrite tick_chartData.
Qed.

Lemma session_capped events : history_capped (chartData (session events)).
Proof.
  unfold session.
  assert (H0 : history_capped (chartData initialMarket)).
  { intros s l. simpl. now rewrite lookup_empty. }
  revert H0. generalize initialMarket.
  induction events as [|e events IH]; intros m Hm; [exact Hm|].
  simpl. apply IH. now apply observe_capped.
Qed.

End HistoryFacts.

(** C9. The effect on [prices] appends a point to the series of a symbol
    only when the symbol has a quote with [price > 0]: failing that, the
    series is left as it was.  From the mount on, no series ever holds more
    than 100 points.  Appending to a series of exactly 100 points drops its
    oldest point and nothing else: the 99 others follow in their order, then
    the new point, 100 points in all. *)
Theorem history_fifo (toLocaleTimeString : Z -> string) (now : Z)
    (m : MarketData) (s : string) :
  let before := chartData m !! s in
  let after := chartData (recordHistory toLocaleTimeString now m) !! s in
  (after <> before -> exists pd, prices m !! s = Some pd /\ 0 < price pd) /\
  (forall events l,
     chartData (session toLocaleTimeString events) !! s = Some l ->
     (length l <= 100)%nat) /\
  (forall pd oldest rest,
     prices m !! s = Some pd -> 0 < price pd ->
     before = Some (oldest :: rest) -> length (oldest :: rest) = 100%nat ->
     after = Some (rest ++ [newPoint toLocaleTimeString now pd]) /\
     length (rest ++ [newPoint toLocaleTimeString now pd]) = 100%nat).
Proof.
  intros before after. unfold after, before.
  rewrite recordHistory_lookup. split; [|split].
  - destruct (prices m !! s) as [pd|]; [|congruence].
    destruct (gt (price pd) 0) eqn:Hgt; [|congruence].
    intros _. exists pd. split; [reflexivity|]. now apply lt_true.
  - intros events l. apply session_capped.
  - intros pd oldest rest -> Hpos -> Hlen.
    apply lt_true in Hpos. unfold gt. rewrite Hpos.
    change (default [] (Some (oldest :: rest))) with (oldest :: rest).
    rewrite (slice_last_full 100 oldest _ rest Hlen). split; [reflexivity|].
    rewrite length_app. simpl in *. lia.
Qed.

Lemma history_fifo_witness :
  let fmt := fun _ : Z => "" in
  let old := mkHistoryPoint "" 4 0 in
  let m := {| prices := prices (quoteAt "BTC" 5);
              chartData := {["BTC" := old :: replicate 99 (mkHistoryPoint "" 5 1)]};
              loading := false; apiError := ∅; lastUpdate := ∅ |} in
  chartData (recordHistory fmt 2 m) !! "BTC" =
  Some (replicate 99 (mkHistoryPoint "" 5 1) ++ [mkHistoryPoint "" 5 2]).
Proof.
  intros fmt old m.
  destruct (history_fifo fmt 2 m "BTC") as (_ & _ & Hfull).
  exact (proj1 (Hfull (mkPriceData 5 0 "crypto" true "") old
                  (replicate 99 (mkHistoryPoint "" 5 1))
                  eq_refl eq_refl eq_refl eq_refl)).
Defined.

(** * Further properties *)

(** ** The transaction log *)

Section Log.

Variable parseFloat : string -> option number.

Lemma quantity_or_zero_eq (h : Holding) :
  quantity_or_zero (Some h) == quantity h.
Proof.
  unfold quantity_or_zero. destruct (truthy (quantity h)) eqn:Ht; [reflexivity|].
  unfold truthy in Ht. apply negb_false_iff, Qeq_bool_iff in Ht.
  now rewrite Ht.
Qed.

Lemma step_position s c sym :
  position_matches s sym -> position_matches (step parseFloat s c) sym.
Proof.
  unfold position_matches. intros Hs.
  destruct (step_cases parseFloat s c)
    as [-> | [(q & p & _ & _ & ->) | (q & p & h & _ & Hh & _ & ->)]];
    [exact Hs | |]; simpl.
  - destruct (String.eqb_spec (call_symbol c) sym) as [Heq | Hne];
      [subst sym|].
    + rewrite lookup_insert_eq. unfold boughtHolding. simpl.
      destruct (holdings s !! call_symbol c) as [h|].
      * rewrite quantity_or_zero_eq, Hs. ring.
      * simpl. rewrite Hs. ring.
    + rewrite lookup_insert_ne by exact Hne. exact Hs.
  - destruct (String.eqb_spec (call_symbol c) sym) as [Heq | Hne];
      [subst sym|].
    + rewrite Hh in Hs. destruct (strict_eq (quantity h) q) eqn:He.
      * apply strict_eq_true in He. rewrite lookup_delete_eq, <- Hs, He. ring.
      * rewrite lookup_insert_eq. simpl. rewrite Hs. ring.
    + destruct (strict_eq (quantity h) q);
        rewrite ?lookup_delete_ne, ?lookup_insert_ne by exact Hne; exact Hs.
Qed.

Lemma run_position calls s sym :
  position_matches s sym -> position_matches (run parseFloat calls s) sym.
Proof.
  revert s. induction calls as [|c calls IH]; intros s Hs; [exact Hs|].
  simpl. apply IH. now apply step_position.
Qed.

(** A call prepends at most one entry, and a well-formed one. *)
Lemma step_log s c :
  transactions (step parseFloat s c) = transactions s \/
  exists tx, tx_wf tx /\ transactions (step parseFloat s c) = tx :: transactions s.
Proof.
  destruct (step_cases parseFloat s c)
    as [-> | [(q & p & Ho & _ & ->) | (q & p & h & Ho & _ & _ & ->)]];
    [now left | |]; right; destruct Ho as (_ & Hq & pd & _ & <- & Hp & _);
    eexists; (split; [|reflexivity]); unfold tx_wf; simpl; auto.
Qed.

Lemma step_opens s c : opens_with_buy s -> opens_with_buy (step parseFloat s c).
Proof.
  unfold opens_with_buy. intros Hs.
  destruct (step_cases parseFloat s c)
    as [-> | [(q & p & _ & _ & ->) | (q & p & h & _ & Hh & _ & ->)]];
    [exact Hs | |]; cbn [boughtStore soldStore transactions store];
    destruct (transactions s) as [|tx log] eqn:Hlog.
  - reflexivity.
  - rewrite last_cons_cons.
    destruct (last (tx :: log)) eqn:Hl; [exact Hs|].
    now apply last_None in Hl.
  - cbn [last] in Hs. rewrite Hs, lookup_empty in Hh. discriminate.
  - rewrite last_cons_cons.
    destruct (last (tx :: log)) eqn:Hl; [exact Hs|].
    now apply last_None in Hl.
Qed.

Lemma run_opens calls s : opens_with_buy s -> opens_with_buy (run parseFloat calls s).
Proof.
  revert s. induction calls as [|c calls IH]; intros s Hs; [exact Hs|].
  simpl. apply IH. now apply step_opens.
Qed.

End Log.

(** X2. After any session from the portfolio of a new account, the quantity
    held of a symbol is what the log bought of it less what it sold, and a
    symbol that is not held has a log that nets to zero. *)
Theorem positions_reconcile_with_log (parseFloat : string -> option number)
    (calls : list TradeCall) (sym : string) :
  let s := run parseFloat calls initialStore in
  match holdings s !! sym with
  | Some h => quantity h == netQuantity sym (transactions s)
  | None => netQuantity sym (transactions s) == 0
  end.
Proof.
  intros s. apply (run_position parseFloat calls initialStore sym).
  unfold position_matches. simpl. rewrite lookup_empty. reflexivity.
Qed.

(** X3. The log is append-only: a session of calls leaves the entries it
    found in place and puts in front of them at most one entry per call, each
    of type BUY or SELL, with a quantity above zero, a price other than zero
    and [total = quantity * price]. *)
Theorem log_append_only (parseFloat : string -> option number)
    (calls : list TradeCall) (s : Store) :
  exists newer,
    transactions (run parseFloat calls s) = newer ++ transactions s /\
    (length newer <= length calls)%nat /\
    Forall tx_wf newer.
Proof.
  revert s. induction calls as [|c calls IH]; intros s.
  - exists []. split; [reflexivity|]. split; [simpl; lia | constructor].
  - simpl. destruct (IH (step parseFloat s c)) as (newer & -> & Hlen & Hwf).
    destruct (step_log parseFloat s c) as [-> | (tx & Htx & ->)].
    + exists newer. split; [reflexivity|]. split; [simpl; lia | exact Hwf].
    + exists (newer ++ [tx]). rewrite <- app_assoc.
      split; [reflexivity|]. split.
      * rewrite length_app. simpl. lia.
      * apply Forall_app. split; [exact Hwf | now constructor].
Qed.

Lemma filter_length_last {A} (f : A -> bool) (l : list A) (x : A) :
  last l = Some x -> f x = false ->
  (length (List.filter f l) < length l)%nat.
Proof.
  intros [l' ->]%last_Some Hx. rewrite List.filter_app, !length_app. simpl.
  rewrite Hx. simpl. pose proof (List.filter_length_le f l'). lia.
Qed.

(** X4. In a session from the portfolio of a new account the oldest entry
    of the log is a BUY: with nothing held, no sell goes through.  So in a
    log that is not empty the SELL entries, which the Win Rate statistic
    counts, are strictly fewer than the entries it divides their number
    by. *)
Theorem opening_trade_is_buy (parseFloat : string -> option number)
    (calls : list TradeCall) :
  let log := transactions (run parseFloat calls initialStore) in
  (forall tx, last log = Some tx -> tx_type tx = "BUY") /\
  (log <> [] ->
   (length (List.filter (fun tx => String.eqb (tx_type tx) "SELL") log)
    < length log)%nat).
Proof.
  intros log.
  assert (Hopen : opens_with_buy (run parseFloat calls initialStore))
    by now apply run_opens.
  unfold opens_with_buy in Hopen. fold log in Hopen.
  split.
  - intros tx Htx. now rewrite Htx in Hopen.
  - intros Hne. destruct (last log) as [tx|] eqn:Hlast;
      [|now apply last_None in Hlast].
    apply (filter_length_last _ log tx Hlast). now rewrite Hopen.
Qed.

(** X5. Whatever its outcome, a call leaves the market data and the selected
    symbol as they were and touches no holding but that of the selected
    symbol. *)
Theorem trade_touches_selected_only (parseFloat : string -> option number)
    (type : string) (clock : Clock) (app : App) :
  let app' := fst (executeTrade parseFloat type clock app) in
  market app' = market app /\
  selectedSymbol app' = selectedSymbol app /\
  (forall s, s <> selectedSymbol app ->
             holdings (store app') !! s = holdings (store app) !! s).
Proof.
  intros app'. unfold app'.
  destruct (executeTrade_outcome parseFloat type clock app)
    as [-> | (q & p & Ht)]; [auto|].
  apply traded_inv in Ht as (_ & Ht). destruct (String.eqb type "buy").
  - destruct Ht as (_ & ->). simpl. repeat split.
    intros s Hs. now apply lookup_insert_ne.
  - destruct Ht as (h & _ & _ & ->). simpl. repeat split.
    intros s Hs. destruct (strict_eq (quantity h) q).
    + now apply lookup_delete_ne.
    + now apply lookup_insert_ne.
Qed.

(** X6. A buy of [q] units at price [p] that goes through takes exactly
    [q * p] off the cash, raises the quantity held of the symbol by [q]
    (from [0] when it was not held) and clears the amount field. *)
Theorem buy_effect (parseFloat : string -> option number) (clock : Clock)
    (app : App) (q p : number) :
  traded parseFloat "buy" clock app q p ->
  let app' := fst (executeTrade parseFloat "buy" clock app) in
  balance (store app') = balance (store app) - q * p /\
  tradeAmount app' = "" /\
  exists h', holdings (store app') !! selectedSymbol app = Some h' /\
    quantity h' ==
    match holdings (store app) !! selectedSymbol app with
    | Some h => quantity h
    | None => 0
    end + q.
Proof.
  intros Ht. apply traded_inv in Ht as (_ & _ & ->). simpl.
  split; [reflexivity|]. split; [reflexivity|].
  eexists. split; [apply lookup_insert_eq|]. simpl.
  destruct (holdings (store app) !! selectedSymbol app) as [h|];
    [|reflexivity].
  now rewrite quantity_or_zero_eq.
Qed.

Lemma buy_effect_witness :
  let app := mkApp initialStore (quoteAt "BTC" 30000) "BTC" "2" in
  let app' := fst (executeTrade parseUnsigned "buy" (mkClock 1 "t") app) in
  traded parseUnsigned "buy" (mkClock 1 "t") app 2 30000 /\
  balance (store app') = 100000 - 2 * 30000 /\ tradeAmount app' = "".
Proof.
  intros app app'.
  assert (Ht : traded parseUnsigned "buy" (mkClock 1 "t") app 2 30000)
    by reflexivity.
  split; [exact Ht|].
  destruct (buy_effect parseUnsigned (mkClock 1 "t") app 2 30000 Ht)
    as (Hb & Ha & _).
  split; [exact Hb | exact Ha].
Defined.

(** X7. Buying [q] units of a symbol that is not held and then selling the
    same [q] units at the same quote puts the holdings back exactly as they
    were, with two entries more in the log; the cash ends as the cash before
    with the cost [q * p] taken off and then added back. *)
Theorem buy_then_sell_round_trip (parseFloat : string -> option number)
    (clock1 clock2 : Clock) (app : App) (q p : number) (amount2 : string) :
  holdings (store app) !! selectedSymbol app = None ->
  traded parseFloat "buy" clock1 app q p ->
  parseFloat amount2 = Some q ->
  let bought := store (fst (executeTrade parseFloat "buy" clock1 app)) in
  let sold :=
    store (fst (executeTrade parseFloat "sell" clock2
                  (mkApp bought (market app) (selectedSymbol app) amount2))) in
  holdings sold = holdings (store app) /\
  balance sold = balance (store app) - q * p + q * p /\
  length (transactions sold) = S (S (length (transactions (store app)))).
Proof.
  intros Hnone Ht Hparse bought sold.
  apply traded_inv in Ht as (Ho & _ & Hfst). simpl in Hfst.
  unfold sold, bought. rewrite Hfst. cbn [store setTradeAmount].
  set (app2 := mkApp (boughtStore clock1 app q p) (market app)
                 (selectedSymbol app) amount2).
  assert (Ho2 : priced_order parseFloat app2 q p).
  { destruct Ho as (_ & Hq & Hpd). split; [exact Hparse|]. split; assumption. }
  assert (Hh2 : holdings (store app2) !! selectedSymbol app2 =
                Some {| quantity := 0 + q; avgCost := p |}).
  { cbn [app2 store selectedSymbol holdings boughtStore].
    rewrite lookup_insert_eq. unfold boughtHolding. now rewrite Hnone. }
  assert (Hlt : lt (0 + q) q = false) by (apply lt_false; lra).
  assert (Heq : strict_eq (0 + q) q = true) by (apply strict_eq_true; ring).
  rewrite (executeTrade_sell _ _ _ _ _ _ Ho2) by discriminate.
  rewrite Hh2. cbn [quantity]. rewrite Hlt. unfold soldStore.
  cbn [quantity]. rewrite Heq.
  cbn [fst setTradeAmount store holdings balance transactions app2
       selectedSymbol boughtStore].
  split; [|split].
  - rewrite delete_insert_eq. now apply delete_id.
  - reflexivity.
  - reflexivity.
Qed.

Lemma buy_then_sell_round_trip_witness :
  let app := mkApp initialStore (quoteAt "BTC" 30000) "BTC" "2" in
  let bought := store (fst (executeTrade parseUnsigned "buy" (mkClock 1 "a") app)) in
  let sold :=
    store (fst (executeTrade parseUnsigned "sell" (mkClock 2 "b")
                  (mkApp bought (quoteAt "BTC" 30000) "BTC" "2"))) in
  holdings sold = ∅ /\ balance sold = 100000 - 2 * 30000 + 2 * 30000.
Proof.
  intros app bought sold.
  destruct (buy_then_sell_round_trip parseUnsigned (mkClock 1 "a") (mkClock 2 "b")
              app 2 30000 "2" eq_refl eq_refl eq_refl) as (Hh & Hb & _).
  split; [exact Hh | exact Hb].
Defined.

(** ** Valuation *)

Lemma Qplus_swap_r (x y z : number) : x + y + z = x + z + y.
Proof.
  destruct x as [a b], y as [c d], z as [e f]. unfold Qplus. simpl.
  f_equal; [|lia].
  rewrite !Pos2Z.inj_mul. ring.
Qed.

Lemma portfolioValue_empty quotes : portfolioValue ∅ quotes = 0.
Proof. apply map_fold_empty. Qed.

Lemma portfolioValue_insert_fresh hs quotes s h :
  hs !! s = None ->
  portfolioValue (<[s := h]> hs) quotes =
  portfolioValue hs quotes + quantity h * priceOrZero quotes s.
Proof.
  intros Hs. unfold portfolioValue.
  rewrite map_fold_insert_L; [reflexivity | | exact Hs].
  intros. apply Qplus_swap_r.
Qed.

Lemma portfolioValue_lookup hs quotes s h :
  hs !! s = Some h ->
  portfolioValue hs quotes =
  portfolioValue (delete s hs) quotes + quantity h * priceOrZero quotes s.
Proof.
  intros Hs. rewrite <- (insert_delete_id hs s h Hs) at 1.
  apply portfolioValue_insert_fresh, lookup_delete_eq.
Qed.

Lemma portfolioValue_insert hs quotes s h :
  portfolioValue (<[s := h]> hs) quotes =
  portfolioValue (delete s hs) quotes + quantity h * priceOrZero quotes s.
Proof.
  rewrite <- insert_delete_eq.
  apply portfolioValue_insert_fresh, lookup_delete_eq.
Qed.

(** X10. With no holdings the portfolio is worth nothing and the total value
    is the cash; and a holding whose symbol has no quote, or a quote of
    price zero, counts for nothing in the portfolio value. *)
Theorem unquoted_holding_worthless (s : Store) (quotes : gmap string PriceData)
    (sym : string) (h : Holding) :
  (holdings s = ∅ -> totalValue s quotes == balance s) /\
  (holdings s !! sym = Some h -> priceOrZero quotes sym == 0 ->
   portfolioValue (holdings s) quotes ==
   portfolioValue (delete sym (holdings s)) quotes).
Proof.
  split.
  - intros He. unfold totalValue. rewrite He, portfolioValue_empty. ring.
  - intros Hh Hz. rewrite (portfolioValue_lookup _ _ _ _ Hh), Hz. ring.
Qed.

Lemma unquoted_holding_worthless_witness :
  let s := {| balance := 5;
              holdings := {["DOT" := mkHolding 3 7; "BTC" := mkHolding 1 10]};
              transactions := [] |} in
  portfolioValue (holdings s) (prices (quoteAt "BTC" 20)) ==
  portfolioValue (delete "DOT" (holdings s)) (prices (quoteAt "BTC" 20)).
Proof.
  intros s.
  apply (proj2 (unquoted_holding_worthless s (prices (quoteAt "BTC" 20))
                  "DOT" (mkHolding 3 7))); reflexivity.
Defined.

(** ** The leaderboard *)

Lemma sortEntries_competitors : sortEntries competitors = competitors.
Proof. reflexivity. Qed.

(** Where the user lands among the competitors. *)
Lemma insert_you total :
  insertEntry (you total) competitors =
  take (length (List.filter (fun c => lt total (value c)) competitors))
    competitors
  ++ you total
  :: drop (length (List.filter (fun c => lt total (value c)) competitors))
       competitors.
Proof.
  unfold competitors. cbn [insertEntry List.filter value you].
  destruct (lt total 125430) eqn:H1.
  - destruct (lt total 118920) eqn:H2.
    + destruct (lt total 112500) eqn:H3.
      * destruct (lt total 108750) eqn:H4; reflexivity.
      * assert (lt total 108750 = false) as ->; [|reflexivity].
        apply lt_false in H3. apply lt_false. lra.
    + assert (lt total 112500 = false) as ->.
      { apply lt_false in H2. apply lt_false. lra. }
      assert (lt total 108750 = false) as ->; [|reflexivity].
      apply lt_false in H2. apply lt_false. lra.
  - assert (lt total 118920 = false) as ->.
    { apply lt_false in H1. apply lt_false. lra. }
    assert (lt total 112500 = false) as ->.
    { apply lt_false in H1. apply lt_false. lra. }
    assert (lt total 108750 = false) as ->; [|reflexivity].
    apply lt_false in H1. apply lt_false. lra.
Qed.

(** X11. The leaderboard lists the user and the four fixed competitors,
    ranked 1 to 5 from the highest value down.  The rank of the user is one
    more than the number of competitors whose value is strictly above the
    total value: on a tie the user is placed first. *)
Theorem leaderboard_ranking (total : number) :
  let board := leaderboardData total in
  let above := length (List.filter (fun c => lt total (value c)) competitors) in
  List.map rank board = [1; 2; 3; 4; 5]%Z /\
  StronglySorted (fun a b => value b <= value a) board /\
  List.map name board ≡ₚ "You" :: List.map name competitors /\
  board !! above =
  Some (mkEntry (Z.of_nat above + 1) "You" total
          (((total - 100000) / 100000) * 100)).
Proof.
  intros board above. unfold board, leaderboardData, sortEntries.
  cbn [fold_right]. change (fold_right insertEntry [] competitors)
    with (sortEntries competitors).
  rewrite sortEntries_competitors, insert_you. fold above.
  unfold above, competitors. cbn [List.filter value].
  destruct (lt total 125430) eqn:H1; destruct (lt total 118920) eqn:H2;
    destruct (lt total 112500) eqn:H3; destruct (lt total 108750) eqn:H4;
    cbn [length take drop app];
    try apply lt_true in H1; try apply lt_false in H1;
    try apply lt_true in H2; try apply lt_false in H2;
    try apply lt_true in H3; try apply lt_false in H3;
    try apply lt_true in H4; try apply lt_false in H4;
    try (exfalso; lra).
  all: split; [reflexivity|]; split;
    [|split; [cbn; solve_Permutation | reflexivity]].
  all: repeat (constructor; [repeat constructor; cbn; lra|]); constructor.
Qed.

(** ** More on the feed *)

Lemma elem_of_cryptoSymbols s symbols :
  s ∈ cryptoSymbols symbols <-> s ∈ symbols /\ s ∈ cryptoCatalog.
Proof.
  unfold cryptoSymbols. rewrite !list_elem_of_In, List.filter_In.
  rewrite bool_decide_eq_true, list_elem_of_In. tauto.
Qed.

Lemma usdOf_truthy data id u : usdOf data id = Some u -> truthy u = true.
Proof.
  unfold usdOf. destruct (data !! id) as [cd|]; [|discriminate].
  destruct (usd cd) as [v|]; [|discriminate].
  destruct (truthy v) eqn:Hv; [|discriminate]. now intros [= <-].
Qed.

Lemma fetched_feed_quote symbols clock response s pd :
  newPrices (fetched symbols clock response) !! s = Some pd -> feed_quote s pd.
Proof.
  rewrite fetched_prices. destruct response as [| status | data]; try discriminate.
  destruct (usdOf data (coinId s)) as [u|] eqn:Hu; [|discriminate].
  case_bool_decide as Hin; [|discriminate]. intros [= <-].
  apply elem_of_cryptoSymbols in Hin as [_ Hcat].
  apply usdOf_truthy in Hu. now repeat split.
Qed.

Lemma fold_setError_timestamps msg l acc :
  newTimestamps (fold_left (setError msg) l acc) = newTimestamps acc.
Proof.
  revert acc. induction l as [|a l IH]; intros acc; [reflexivity|].
  simpl. now rewrite IH.
Qed.

Lemma fold_quote_timestamps data clock l acc s :
  (is_Some (newTimestamps acc !! s) <-> is_Some (newPrices acc !! s)) ->
  is_Some (newTimestamps (fold_left (quoteSymbol data clock) l acc) !! s) <->
  is_Some (newPrices (fold_left (quoteSymbol data clock) l acc) !! s).
Proof.
  revert acc. induction l as [|a l IH]; intros acc Hacc; [exact Hacc|].
  simpl. apply IH. unfold quoteSymbol.
  destruct (usdOf data (coinId a)); simpl; [|exact Hacc].
  destruct (decide (a = s)) as [-> | Hne].
  - rewrite !lookup_insert_eq. split; eauto.
  - now rewrite !lookup_insert_ne by exact Hne.
Qed.

Lemma fetched_timestamps symbols clock response s :
  is_Some (newTimestamps (fetched symbols clock response) !! s) <->
  is_Some (newPrices (fetched symbols clock response) !! s).
Proof.
  rewrite fetched_fold. destruct response as [| status | data].
  - rewrite fold_setError_timestamps, fold_setError_prices. simpl.
    rewrite !lookup_empty. split; intros [? ?]; discriminate.
  - rewrite fold_setError_timestamps, fold_setError_prices. simpl.
    rewrite !lookup_empty. split; intros [? ?]; discriminate.
  - apply fold_quote_timestamps. simpl. rewrite !lookup_empty. split; intros [? ?]; discriminate.
Qed.

Lemma fetched_error_catalog symbols clock response s :
  is_Some (newErrors (fetched symbols clock response) !! s) -> s ∈ cryptoCatalog.
Proof.
  rewrite fetched_errors. case_bool_decide as Hin.
  - intros _. now apply elem_of_cryptoSymbols in Hin.
  - now intros [? ?].
Qed.

Lemma tick_lastUpdate m t s :
  let fresh := fetched (tick_symbols t) (tick_clock t) (tick_response t) in
  lastUpdate (tick m t) !! s =
  match newTimestamps fresh !! s with
  | Some e => Some e
  | None => lastUpdate m !! s
  end.
Proof.
  unfold tick, fetchCryptoPrices. simpl. case_bool_decide as Hsize; simpl.
  - unfold spread. rewrite lookup_union.
    destruct (newTimestamps _ !! s), (lastUpdate m !! s); reflexivity.
  - assert (Hempty : newPrices (fetched (tick_symbols t) (tick_clock t)
                                  (tick_response t)) = ∅)
      by (apply map_size_empty_inv; lia).
    destruct (newTimestamps _ !! s) eqn:Hts; [|reflexivity].
    assert (Hsome : is_Some (newTimestamps
              (fetched (tick_symbols t) (tick_clock t) (tick_response t)) !! s))
      by eauto.
    apply fetched_timestamps in Hsome. rewrite Hempty, lookup_empty in Hsome.
    now destruct Hsome.
Qed.

Lemma tick_loading m t :
  loading (tick m t) =
  if bool_decide (0 < size (newPrices
       (fetched (tick_symbols t) (tick_clock t) (tick_response t))))%nat
  then false else loading m.
Proof. unfold tick, fetchCryptoPrices. now case_bool_decide. Qed.

Lemma tick_market_ok m t : market_ok m -> market_ok (tick m t).
Proof.
  intros (Hq & Hts & Herr & Hload).
  pose proof (fetched_timestamps (tick_symbols t) (tick_clock t)
                (tick_response t)) as Hfresh.
  split; [|split; [|split]].
  - intros s pd H. rewrite tick_prices in H.
    destruct (newPrices _ !! s) eqn:Hs.
    + injection H as <-. now apply fetched_feed_quote in Hs.
    + now apply Hq.
  - intros s. rewrite tick_lastUpdate, tick_prices. cbn zeta.
    specialize (Hfresh s). specialize (Hts s).
    destruct (newTimestamps _ !! s) eqn:Hn, (newPrices _ !! s) eqn:Hp.
    + split; eauto.
    + destruct Hfresh as [Hf _]. destruct Hf as [? ?]; [eauto | discriminate].
    + destruct Hfresh as [_ Hf]. destruct Hf as [? ?]; [eauto | discriminate].
    + exact Hts.
  - intros s H. rewrite tick_apiError in H. cbn zeta in H.
    destruct (bool_decide _); [|now apply Herr].
    destruct (newErrors _ !! s) eqn:Hn; [|now apply Herr].
    apply (fetched_error_catalog (tick_symbols t) (tick_clock t) (tick_response t)).
    rewrite Hn. eauto.
  - rewrite tick_loading. split.
    + case_bool_decide as Hsize; [discriminate|].
      intros Hl. apply Hload in Hl. apply map_eq. intros s.
      rewrite tick_prices, Hl.
      assert (Hempty : newPrices (fetched (tick_symbols t) (tick_clock t)
                                    (tick_response t)) = ∅)
        by (apply map_size_empty_inv; lia).
      now rewrite Hempty, lookup_empty.
    + intros Hp. case_bool_decide as Hsize.
      * exfalso.
        assert (Hne : newPrices (fetched (tick_symbols t) (tick_clock t)
                                   (tick_response t)) <> ∅).
        { intros He. rewrite He, map_size_empty in Hsize. lia. }
        apply map_choose in Hne as (s & pd & Hs).
        pose proof (tick_prices m t s) as Hlook.
        rewrite Hs, Hp, lookup_empty in Hlook. discriminate.
      * apply Hload. apply map_eq. intros s. rewrite lookup_empty.
        pose proof (tick_prices m t s) as Hlook.
        rewrite Hp, lookup_empty in Hlook.
        destruct (newPrices _ !! s); [discriminate | now symmetry].
Qed.

Lemma initialMarket_ok : market_ok initialMarket.
Proof.
  split; [|split; [|split]]; simpl.
  - intros s pd. now rewrite lookup_empty.
  - intros s. rewrite !lookup_empty. split; intros [? ?]; discriminate.
  - intros s. rewrite lookup_empty. intros [? ?]. discriminate.
  - split; reflexivity.
Qed.

Lemma poll_market_ok ticks m : market_ok m -> market_ok (poll ticks m).
Proof.
  revert m. induction ticks as [|t ticks IH]; intros m Hm; [exact Hm|].
  simpl. apply IH. now apply tick_market_ok.
Qed.

(** X12. A symbol outside the catalog of the feed (DOT and LINK of the
    trade list are two) is never requested, so at no point of a session does
    it have a quote, a stamp or an error, it is never tradeable, and a click
    on Buy or Sell for it returns without effect and without alert. *)
Theorem outside_catalog_untradeable (ticks : list Tick) (s : string) :
  s ∉ cryptoCatalog ->
  let m := poll ticks initialMarket in
  prices m !! s = None /\ lastUpdate m !! s = None /\ apiError m !! s = None /\
  canTrade (prices m) s = false /\
  forall parseFloat type clock st amount,
    executeTrade parseFloat type clock (mkApp st m s amount) =
    (mkApp st m s amount, []).
Proof.
  intros Hs m.
  destruct (poll_market_ok ticks initialMarket initialMarket_ok)
    as (Hq & Hts & Herr & _). fold m in Hq, Hts, Herr.
  assert (Hp : prices m !! s = None).
  { destruct (prices m !! s) as [pd|] eqn:Hpd; [|reflexivity].
    now apply Hq in Hpd as (? & _). }
  split; [exact Hp|]. split; [|split; [|split]].
  - apply eq_None_not_Some. intros Hl. apply Hts in Hl.
    rewrite Hp in Hl. now destruct Hl.
  - apply eq_None_not_Some. intros He. now apply Herr in He.
  - unfold canTrade. now rewrite Hp.
  - intros parseFloat type clock st amount. apply silent_guards. right.
    unfold unpriced. simpl. now rewrite Hp.
Qed.

Lemma outside_catalog_untradeable_witness :
  let m := poll [answered ["BTC"; "DOT"] 1 [("bitcoin", 5); ("polkadot", 7)]]
             initialMarket in
  ("DOT" ∉ cryptoCatalog) /\ canTrade (prices m) "DOT" = false /\
  executeTrade parseUnsigned "buy" (mkClock 2 "") (mkApp initialStore m "DOT" "1")
  = (mkApp initialStore m "DOT" "1", []).
Proof.
  intros m.
  assert (Hdot : "DOT" ∉ cryptoCatalog).
  { intros H. apply list_elem_of_In in H. simpl in H.
    repeat (destruct H as [H | H]; [discriminate H|]). exact H. }
  split; [exact Hdot|].
  destruct (outside_catalog_untradeable
              [answered ["BTC"; "DOT"] 1 [("bitcoin", 5); ("polkadot", 7)]]
              "DOT" Hdot) as (_ & _ & _ & Hc & Hsilent).
  split; [exact Hc | apply Hsilent].
Defined.

(** X13. On the market data of a session of the feed the guard on
    [canTrade] never fires: every cached quote is tradeable, and a symbol
    with no cached quote is stopped silently by the guard on the price
    before it.  So no call ever alerts that trading is unavailable. *)
Theorem unavailable_alert_never_fires (ticks : list Tick)
    (parseFloat : string -> option number) (type : string) (clock : Clock)
    (st : Store) (sym amount : string) :
  snd (executeTrade parseFloat type clock
         (mkApp st (poll ticks initialMarket) sym amount))
  <> [UntradeableSymbol].
Proof.
  destruct (poll_market_ok ticks initialMarket initialMarket_ok) as (Hq & _).
  set (m := poll ticks initialMarket) in *.
  unfold executeTrade. cbn [tradeAmount market selectedSymbol store].
  destruct (parseFloat amount) as [q|]; [|discriminate].
  destruct (negb (truthy q) || le q 0); [discriminate|].
  destruct (prices m !! sym) as [pd|] eqn:Hpd; [|discriminate].
  cbn [fmap option_fmap option_map].
  destruct (negb (truthy (price pd))); [discriminate|].
  apply Hq in Hpd as Hfq. destruct Hfq as (_ & _ & Htr & _).
  unfold canTrade. rewrite Hpd, Htr. cbn [negb].
  destruct (String.eqb type "buy").
  - destruct (gt _ _); discriminate.
  - destruct (holdings st !! sym) as [h|]; [|discriminate].
    destruct (lt _ _); discriminate.
Qed.

Lemma partial_response_recorded_witness :
  let data : gmap string CoinData := {["bitcoin" := mkCoinData (Some 5) None]} in
  let m' := fetchCryptoPrices ["ETH"; "BTC"] (mkClock 1 "") (HttpOk data)
              initialMarket in
  apiError m' !! "ETH" = Some "Data Unavailable" /\
  price <$> prices m' !! "BTC" = Some 5 /\
  apiError m' !! "BTC" = None.
Proof.
  intros data m'.
  destruct (partial_response_recorded ["ETH"; "BTC"] (mkClock 1 "") data
              initialMarket "ETH" "BTC" 5) as (He & Hp & Hn);
    try reflexivity.
  - apply elem_of_cryptoSymbols. split; [now left|].
    apply list_elem_of_In. simpl. tauto.
  - apply elem_of_cryptoSymbols. split; [right; now left|].
    apply list_elem_of_In. simpl. tauto.
  - split; [exact He|]. split; [|exact Hn].
    fold m' in Hp. now rewrite Hp.
Defined.

(** X15. The loading flag of a session comes down exactly when some tick
    has produced a quote: a feed that never prices anything leaves the
    component loading for good. *)
Theorem loading_until_first_quote (ticks : list Tick) :
  loading (poll ticks initialMarket) = false <->
  exists t s, t ∈ ticks /\ quoted t s = true.
Proof.
  destruct (poll_market_ok ticks initialMarket initialMarket_ok)
    as (Hq & _ & _ & Hload).
  split.
  - intros Hl.
    assert (Hne : prices (poll ticks initialMarket) <> ∅).
    { intros He. apply Hload in He. congruence. }
    apply map_choose in Hne as (s & pd & Hs).
    assert (Hc : canTrade (prices (poll ticks initialMarket)) s = true).
    { unfold canTrade. rewrite Hs. now apply Hq in Hs as (_ & _ & ? & _). }
    rewrite canTrade_poll in Hc. unfold canTrade at 1 in Hc.
    simpl in Hc. rewrite lookup_empty, orb_false_r in Hc.
    apply existsb_exists in Hc as (t & Hin & Hqt).
    exists t, s. split; [now apply list_elem_of_In | exact Hqt].
  - intros (t & s & Hin & Hqt).
    apply not_true_iff_false. intros Hl. apply Hload in Hl.
    assert (Hc : canTrade (prices (poll ticks initialMarket)) s = true).
    { rewrite canTrade_poll. apply orb_true_iff. left.
      apply existsb_exists. exists t.
      split; [now apply list_elem_of_In | exact Hqt]. }
    unfold canTrade in Hc. rewrite Hl, lookup_empty in Hc. discriminate.
Qed.

(** X16. Every quote cached in a session is one the feed built for a
    catalog symbol: it is tradeable, its price is not zero, and the symbol
    has a last-update stamp; and only symbols with a cached quote have a
    stamp. *)
Theorem cached_quotes_stamped (ticks : list Tick) (s : string) :
  let m := poll ticks initialMarket in
  (forall pd, prices m !! s = Some pd ->
     s ∈ cryptoCatalog /\ tradeable pd = true /\ ~ price pd == 0) /\
  (is_Some (lastUpdate m !! s) <-> is_Some (prices m !! s)).
Proof.
  intros m.
  destruct (poll_market_ok ticks initialMarket initialMarket_ok)
    as (Hq & Hts & _). fold m in Hq, Hts.
  split; [|apply Hts].
  intros pd Hpd. apply Hq in Hpd as (Hcat & Hp & Htr & _).
  split; [exact Hcat|]. split; [exact Htr|]. now apply truthy_true.
Qed.

Lemma cached_quotes_stamped_witness :
  let m := poll [answered ["BTC"] 7 [("bitcoin", 5)]] initialMarket in
  "BTC" ∈ cryptoCatalog /\ lastUpdate m !! "BTC" = Some 7%Z.
Proof.
  intros m.
  destruct (cached_quotes_stamped [answered ["BTC"] 7 [("bitcoin", 5)]] "BTC")
    as (Hq & _).
  destruct (Hq (mkPriceData 5 0 "crypto" true "") eq_refl) as (Hcat & _).
  split; [exact Hcat | reflexivity].
Defined.

(** X17. A tick that prices no symbol at all changes nothing: whatever the
    response (a failure, a refusal, or an [ok] body without a usable price),
    the market data after it, errors and loading flag included, is the
    market data before it. *)
Theorem unpriced_tick_changes_nothing (m : MarketData) (t : Tick) :
  (forall s, quoted t s = false) -> tick m t = m.
Proof.
  intros Hq. unfold tick, fetchCryptoPrices.
  assert (Hempty : newPrices (fetched (tick_symbols t) (tick_clock t)
                                (tick_response t)) = ∅).
  { apply map_eq. intros s. rewrite lookup_empty. now apply quoted_false. }
  now rewrite Hempty, map_size_empty.
Qed.

Lemma unpriced_tick_changes_nothing_witness :
  let t := answered ["BTC"; "ETH"] 1 [] in
  newErrors (fetched (tick_symbols t) (tick_clock t) (tick_response t)) !! "BTC"
  = Some "Data Unavailable" /\
  tick initialMarket t = initialMarket.
Proof.
  intros t. split; [reflexivity|].
  apply (unpriced_tick_changes_nothing initialMarket t).
  intros s. apply quoted_false. rewrite fetched_prices. simpl.
  unfold usdOf. now rewrite lookup_empty.
Defined.

(** ** More on the price history *)

Lemma sorted_drop {A} (R : A -> A -> Prop) (n : nat) (l : list A) :
  StronglySorted R l -> StronglySorted R (drop n l).
Proof.
  revert l. induction n as [|n IH]; intros l Hl; [now rewrite drop_0|].
  destruct l as [|x l]; [constructor|].
  simpl. apply IH. now apply StronglySorted_inv in Hl.
Qed.

Lemma sorted_snoc {A} (R : A -> A -> Prop) (l : list A) (x : A) :
  StronglySorted R l -> Forall (fun a => R a x) l ->
  StronglySorted R (l ++ [x]).
Proof.
  induction l as [|a l IH]; intros Hl Hx; simpl.
  - repeat constructor.
  - apply StronglySorted_inv in Hl as [Hl Ha].
    apply Forall_cons in Hx as [Hax Hx]. constructor.
    + now apply IH.
    + apply Forall_app. split; [exact Ha | now constructor].
Qed.

Lemma Forall_map_snd {A} (b : Z) (events : list (A * Z)) :
  Forall (Z.le b) (List.map snd events) ->
  Forall (fun e => (b <= snd e)%Z) events.
Proof.
  induction events as [|e events IH]; intros H; [constructor|].
  simpl in H. apply Forall_cons in H as [He H]. constructor; [exact He|].
  now apply IH.
Qed.

Section HistoryMore.

Variable toLocaleTimeString : Z -> string.

Lemma recordHistory_chart_ok now bound m :
  (bound <= now)%Z -> chart_ok bound (chartData m) ->
  chart_ok now (chartData (recordHistory toLocaleTimeString now m)).
Proof.
  intros Hb Hm s l. rewrite recordHistory_lookup.
  assert (Hold : forall l, chartData m !! s = Some l ->
            Forall (fun pt => 0 < hp_price pt /\ (timestamp pt <= now)%Z) l /\
            StronglySorted earlier l).
  { intros l0 Hl0. apply Hm in Hl0 as [Hall Hsorted]. split; [|exact Hsorted].
    eapply Forall_impl; [exact Hall|]. simpl. intros pt [? ?]. split; [assumption|lia]. }
  destruct (prices m !! s) as [pd|]; [|apply Hold].
  destruct (gt (price pd) 0) eqn:Hgt; [|apply Hold].
  intros [= <-]. apply lt_true in Hgt.
  assert (Hex : Forall (fun pt => 0 < hp_price pt /\ (timestamp pt <= now)%Z)
                  (default [] (chartData m !! s)) /\
                StronglySorted earlier (default [] (chartData m !! s))).
  { destruct (chartData m !! s) as [l0|]; [now apply Hold|].
    split; constructor. }
  destruct Hex as [Hall Hsorted]. unfold slice_last. split.
  - apply Forall_drop, Forall_app. split; [exact Hall|].
    constructor; [|constructor]. simpl. split; [exact Hgt | lia].
  - apply sorted_drop, sorted_snoc; [exact Hsorted|].
    eapply Forall_impl; [exact Hall|]. intros pt [_ Hpt]. exact Hpt.
Qed.

Lemma observe_chart_ok bound m e :
  (bound <= snd e)%Z -> chart_ok bound (chartData m) ->
  chart_ok (snd e) (chartData (observe toLocaleTimeString m e)).
Proof.
  intros Hb Hm. unfold observe. destruct (bool_decide _).
  - apply (recordHistory_chart_ok _ bound); [exact Hb|].
    now rewrite tick_chartData.
  - rewrite tick_chartData. intros s l Hl. apply Hm in Hl as [Hall Hsorted].
    split; [|exact Hsorted]. eapply Forall_impl; [exact Hall|].
    simpl. intros pt [? ?]. split; [assumption | lia].
Qed.

Lemma fold_observe_chart_ok events bound m :
  Forall (fun e => (bound <= snd e)%Z) events ->
  StronglySorted Z.le (List.map snd events) ->
  chart_ok bound (chartData m) ->
  exists bound',
    chart_ok bound' (chartData (fold_left (observe toLocaleTimeString) events m)).
Proof.
  revert bound m. induction events as [|e events IH]; intros bound m Hb Hs Hm.
  - now exists bound.
  - simpl. apply Forall_cons in Hb as [Hbe Hb].
    simpl in Hs. apply StronglySorted_inv in Hs as [Hs He].
    apply (IH (snd e)); [| exact Hs | now apply (observe_chart_ok bound)].
    now apply Forall_map_snd.
Qed.

End HistoryMore.

(** X18. While a series holds fewer than 100 points the effect evicts
    nothing: the quote of a priced symbol is added at the end of the series
    (a series that did not exist starts with it) and every earlier point
    stays. *)
Theorem history_append_below_cap (toLocaleTimeString : Z -> string) (now : Z)
    (m : MarketData) (s : string) (pd : PriceData) :
  prices m !! s = Some pd -> 0 < price pd ->
  (length (default [] (chartData m !! s)) < 100)%nat ->
  chartData (recordHistory toLocaleTimeString now m) !! s =
  Some (default [] (chartData m !! s) ++ [newPoint toLocaleTimeString now pd]).
Proof.
  intros Hpd Hpos Hlen. rewrite recordHistory_lookup, Hpd.
  apply lt_true in Hpos. unfold gt. rewrite Hpos. f_equal.
  apply slice_last_short. rewrite length_app. simpl. lia.
Qed.

Lemma history_append_below_cap_witness :
  let fmt := fun _ : Z => "" in
  let m := {| prices := prices (quoteAt "BTC" 5); chartData := ∅;
              loading := false; apiError := ∅; lastUpdate := ∅ |} in
  chartData (recordHistory fmt 2 m) !! "BTC" = Some [mkHistoryPoint "" 5 2].
Proof.
  intros fmt m.
  apply (history_append_below_cap fmt 2 m "BTC" (mkPriceData 5 0 "crypto" true ""));
    [reflexivity | reflexivity | vm_compute; lia].
Defined.

(** X19. The effect records the whole cache, not the news of the tick: when
    a tick brings any quote, every cached symbol with a price above zero gets
    a new point, and a symbol that this tick did not quote gets one at its
    stale price with the new time. *)
Theorem stale_quote_rerecorded (toLocaleTimeString : Z -> string)
    (m : MarketData) (t : Tick) (now : Z) (s other : string) (pd : PriceData) :
  quoted t other = true -> quoted t s = false ->
  prices m !! s = Some pd -> 0 < price pd ->
  chartData (observe toLocaleTimeString m (t, now)) !! s =
  Some (slice_last 100 (default [] (chartData m !! s)
                        ++ [mkHistoryPoint (toLocaleTimeString now) (price pd) now])).
Proof.
  intros Hother Hs Hpd Hpos. unfold observe. cbn [fst snd].
  assert (Hsize : (0 < size (newPrices (fetched (tick_symbols t) (tick_clock t)
                                          (tick_response t))))%nat).
  { apply quoted_true in Hother as [pd' Hpd'].
    destruct (size _) eqn:Hsz; [|lia].
    apply map_size_empty_inv in Hsz. rewrite Hsz, lookup_empty in Hpd'.
    discriminate. }
  rewrite bool_decide_eq_true_2 by exact Hsize.
  rewrite recordHistory_lookup, tick_prices, tick_chartData.
  apply quoted_false in Hs. rewrite Hs, Hpd.
  apply lt_true in Hpos. unfold gt. now rewrite Hpos.
Qed.

Lemma stale_quote_rerecorded_witness :
  let fmt := fun _ : Z => "" in
  let m := poll [answered ["BTC"; "ETH"] 1 [("bitcoin", 5); ("ethereum", 7)]]
             initialMarket in
  let t := answered ["BTC"; "ETH"] 2 [("bitcoin", 6)] in
  chartData (observe fmt m (t, 9%Z)) !! "ETH" = Some [mkHistoryPoint "" 7 9].
Proof.
  intros fmt m t.
  apply (stale_quote_rerecorded fmt m t 9 "ETH" "BTC"
           (mkPriceData 7 0 "crypto" true "")); reflexivity.
Defined.

(** X20. When the clock of the effect does not run backwards, every series
    of a session is in arrival order (timestamps never decrease along it)
    and every point in it has a price above zero. *)
Theorem history_in_arrival_order (toLocaleTimeString : Z -> string)
    (events : list (Tick * Z)) (s : string) (l : list HistoryPoint) :
  StronglySorted Z.le (List.map snd events) ->
  chartData (session toLocaleTimeString events) !! s = Some l ->
  StronglySorted earlier l /\ Forall (fun pt => 0 < hp_price pt) l.
Proof.
  intros Hsorted Hl. unfold session in Hl.
  destruct events as [|e events].
  { simpl in Hl. rewrite lookup_empty in Hl. discriminate. }
  simpl in Hsorted. apply StronglySorted_inv in Hsorted as [Hsorted He].
  assert (H1 : chart_ok (snd e)
                 (chartData (observe toLocaleTimeString initialMarket e))).
  { apply (observe_chart_ok _ (snd e)); [lia|].
    intros s' l'. simpl. now rewrite lookup_empty. }
  destruct (fold_observe_chart_ok toLocaleTimeString events (snd e) _
              (Forall_map_snd _ _ He) Hsorted H1) as (bound & Hok).
  simpl in Hl. apply Hok in Hl as [Hall Hs]. split; [exact Hs|].
  eapply Forall_impl; [exact Hall|]. now intros pt [? _].
Qed.

Lemma history_in_arrival_order_witness :
  let fmt := fun _ : Z => "" in
  let events := [(answered ["BTC"] 1 [("bitcoin", 5)], 10%Z);
                 (answered ["BTC"] 2 [("bitcoin", 6)], 20%Z)] in
  chartData (session fmt events) !! "BTC" =
    Some [mkHistoryPoint "" 5 10; mkHistoryPoint "" 6 20] /\
  StronglySorted earlier [mkHistoryPoint "" 5 10; mkHistoryPoint "" 6 20].
Proof.
  intros fmt events. split; [reflexivity|].
  apply (history_in_arrival_order fmt events "BTC"); [|reflexivity].
  repeat constructor; simpl; lia.
Defined.

(** ** The tracked symbols *)

Lemma elem_of_uniq seen l s : s ∈ uniq seen l <-> s ∈ l /\ s ∉ seen.
Proof.
  revert seen. induction l as [|x l IH]; intros seen; simpl.
  - rewrite !elem_of_nil. tauto.
  - case_bool_decide as Hx.
    + rewrite IH, elem_of_cons. split; [tauto|].
      intros [[-> | Hl] Hs]; [contradiction | tauto].
    + rewrite !elem_of_cons, IH, elem_of_cons.
      destruct (decide (s = x)) as [-> | Hne]; tauto.
Qed.

Lemma NoDup_uniq seen l : NoDup (uniq seen l).
Proof.
  revert seen. induction l as [|x l IH]; intros seen; simpl; [constructor|].
  case_bool_decide as Hx; [apply IH|].
  apply NoDup_cons. split; [|apply IH].
  rewrite elem_of_uniq, elem_of_cons. tauto.
Qed.

Lemma NoDup_cryptoSymbols symbols : NoDup symbols -> NoDup (cryptoSymbols symbols).
Proof.
  unfold cryptoSymbols. induction 1 as [|x l Hx Hl IH]; simpl; [constructor|].
  destruct (bool_decide (x ∈ cryptoCatalog)); [|exact IH].
  apply NoDup_cons. split; [|exact IH].
  rewrite list_elem_of_In, List.filter_In, <- list_elem_of_In. tauto.
Qed.

(** Distinct catalog symbols have distinct coin ids. *)
Lemma coinId_inj x y :
  x ∈ cryptoCatalog -> y ∈ cryptoCatalog -> coinId x = coinId y -> x = y.
Proof.
  intros Hx Hy. apply list_elem_of_In in Hx, Hy. simpl in Hx, Hy.
  repeat (destruct Hx as [<- | Hx]); try contradiction;
    repeat (destruct Hy as [<- | Hy]); try contradiction;
    intros H; (reflexivity || (vm_compute in H; discriminate H)).
Qed.

Lemma NoDup_requestIds symbols : NoDup symbols -> NoDup (requestIds symbols).
Proof.
  intros Hs. unfold requestIds.
  assert (Hcat : forall x, x ∈ cryptoSymbols symbols -> x ∈ cryptoCatalog)
    by (intros x Hx; now apply elem_of_cryptoSymbols in Hx).
  apply NoDup_cryptoSymbols in Hs.
  induction Hs as [|x l Hx Hl IH]; simpl; [constructor|].
  apply NoDup_cons. split.
  - intros Hin. apply list_elem_of_In, List.in_map_iff in Hin as (y & Hy & Hyl).
    apply list_elem_of_In in Hyl. apply coinId_inj in Hy.
    + subst y. contradiction.
    + apply Hcat. now right.
    + apply Hcat. now left.
  - apply IH. intros y Hy. apply Hcat. now right.
Qed.

(** X21. The tracked symbols are the held symbols, the six defaults and the
    selected symbol, each exactly once.  Of these the feed requests the
    catalog symbols only, each coin id at most once, and always the six
    defaults. *)
Theorem tracked_symbols (holdingSymbols : list string) (selected : string) :
  let tracked := allSymbols holdingSymbols selected in
  NoDup tracked /\
  (forall s, s ∈ tracked <->
             s ∈ holdingSymbols \/ s ∈ defaultSymbols \/ s = selected) /\
  NoDup (requestIds tracked) /\
  (forall s, s ∈ cryptoSymbols tracked -> s ∈ cryptoCatalog) /\
  (forall d, d ∈ defaultSymbols -> d ∈ cryptoSymbols tracked).
Proof.
  intros tracked.
  assert (Hmem : forall s, s ∈ tracked <->
            s ∈ holdingSymbols \/ s ∈ defaultSymbols \/ s = selected).
  { intros s. unfold tracked, allSymbols.
    rewrite elem_of_uniq, !elem_of_app, list_elem_of_singleton, elem_of_nil.
    tauto. }
  split; [apply NoDup_uniq|]. split; [exact Hmem|].
  split; [apply NoDup_requestIds, NoDup_uniq|]. split.
  - intros s Hs. now apply elem_of_cryptoSymbols in Hs.
  - intros d Hd. apply elem_of_cryptoSymbols. split; [apply Hmem; tauto|].
    apply list_elem_of_In in Hd. apply list_elem_of_In. simpl in *. tauto.
Qed.

Lemma tracked_symbols_witness :
  allSymbols ["ETH"; "DOT"] "ETH" =
    ["ETH"; "DOT"; "BTC"; "SOL"; "DOGE"; "ADA"; "XRP"] /\
  "BTC" ∈ cryptoSymbols (allSymbols ["ETH"; "DOT"] "ETH").
Proof.
  split; [reflexivity|].
  apply (tracked_symbols ["ETH"; "DOT"] "ETH"). now left.
Defined.

(** ** Accounts and sessions *)

Lemma find_snoc {A} (f : A -> bool) (l : list A) (x : A) :
  List.find f (l ++ [x]) =
  match List.find f l with
  | Some y => Some y
  | None => if f x then Some x else None
  end.
Proof.
  induction l as [|a l IH]; simpl; [reflexivity|].
  now destruct (f a).
Qed.

Lemma find_map_stable {A} (p : A -> bool) (g : A -> A) (l : list A) :
  (forall x, p (g x) = p x) ->
  List.find p (List.map g l) = option_map g (List.find p l).
Proof.
  intros Hp. induction l as [|a l IH]; simpl; [reflexivity|].
  rewrite Hp. now destruct (p a).
Qed.

Lemma find_none_elem {A} (f : A -> bool) (l : list A) :
  List.find f l = None <-> forall x, x ∈ l -> f x = false.
Proof.
  split.
  - intros H x Hx. apply list_elem_of_In in Hx.
    now apply (List.find_none f l H).
  - induction l as [|a l IH]; intros H; simpl; [reflexivity|].
    rewrite (H a) by now left. apply IH. intros x Hx. apply H. now right.
Qed.

Lemma find_some_elem {A} (f : A -> bool) (l : list A) (x : A) :
  List.find f l = Some x -> x ∈ l /\ f x = true.
Proof.
  intros H. apply List.find_some in H as [Hin Hf].
  split; [now apply list_elem_of_In | exact Hf].
Qed.

Lemma matches_true email password u :
  matches email password u = true <->
  u_email u = email /\ u_password u = Some password.
Proof.
  unfold matches. rewrite andb_true_iff, String.eqb_eq, bool_decide_eq_true.
  tauto.
Qed.

Lemma login_unfold email password a :
  login email password a =
  match List.find (matches email password) (users a) with
  | None => (a, Threw "Invalid email or password")
  | Some user =>
    (openSession (withoutPassword user) (users a), Returned (withoutPassword user))
  end.
Proof. reflexivity. Qed.

(** X22. Signing up with an email that no account has creates the account
    with the portfolio of a new account and opens a session on its profile,
    which carries no password; and after a logout, logging in with the same
    email and password opens that very session again. *)
Theorem signup_then_login (clock : Clock) (email password username : string)
    (a : Auth) :
  (forall u, u ∈ users a -> u_email u <> email) ->
  exists profile,
    signup clock email password username a =
      (openSession profile
         (users a ++ [mkUser (now clock) email (Some password) username
                        initialStore (iso clock)]),
       Returned profile) /\
    u_portfolio profile = initialStore /\ u_password profile = None /\
    login email password
      (logout (fst (signup clock email password username a))) =
    (fst (signup clock email password username a), Returned profile).
Proof.
  intros Hfresh.
  assert (Hfind : List.find (fun u => String.eqb (u_email u) email) (users a)
                  = None).
  { apply find_none_elem. intros u Hu. apply String.eqb_neq. now apply Hfresh. }
  unfold signup. rewrite Hfind. eexists. split; [reflexivity|].
  split; [reflexivity|]. split; [reflexivity|].
  cbn [fst]. rewrite login_unfold. cbn [logout users openSession].
  rewrite find_snoc.
  assert (Hnone : List.find (matches email password) (users a) = None).
  { apply find_none_elem. intros u Hu. unfold matches.
    apply andb_false_iff. left. apply String.eqb_neq. now apply Hfresh. }
  rewrite Hnone. unfold matches at 1. cbn [u_email u_password].
  rewrite String.eqb_refl, bool_decide_eq_true_2 by reflexivity.
  reflexivity.
Qed.

Lemma signup_then_login_witness :
  let a := fst (signup (mkClock 1 "t") "a@x.io" "pw" "ann" (mount [] None)) in
  (u_email <$> currentUser a) = Some "a@x.io" /\
  fst (login "a@x.io" "pw" (logout a)) = a.
Proof.
  intros a.
  destruct (signup_then_login (mkClock 1 "t") "a@x.io" "pw" "ann" (mount [] None))
    as (profile & Hs & _ & _ & Hl).
  { intros u Hu. simpl in Hu. now apply elem_of_nil in Hu. }
  split; [reflexivity|]. fold a in Hl. now rewrite Hl.
Defined.

(** X23. A login goes through exactly when some account has that email and
    that password.  It then opens a session on the profile of such an
    account, without the password; otherwise it throws "Invalid email or
    password" and leaves the state as it was. *)
Theorem login_outcome (email password : string) (a : Auth) :
  ((exists u, u ∈ users a /\ u_email u = email /\
              u_password u = Some password) <->
   exists profile, snd (login email password a) = Returned profile) /\
  (forall profile, snd (login email password a) = Returned profile ->
     u_email profile = email /\ u_password profile = None /\
     currentUser (fst (login email password a)) = Some profile /\
     exists r, r ∈ users a /\ withoutPassword r = profile /\
               u_password r = Some password) /\
  (forall msg, snd (login email password a) = Threw msg ->
     msg = "Invalid email or password" /\ fst (login email password a) = a).
Proof.
  rewrite login_unfold.
  destruct (List.find (matches email password) (users a)) as [user|] eqn:Hf.
  - apply find_some_elem in Hf as [Hin Hm]. apply matches_true in Hm as [He Hp].
    cbn [fst snd]. split; [|split].
    + split; [eauto|]. intros _. now exists user.
    + intros profile [= <-]. split; [exact He|]. split; [reflexivity|].
      split; [reflexivity|]. now exists user.
    + intros msg H. discriminate H.
  - cbn [fst snd]. split; [|split].
    + split; [|intros [profile H]; discriminate H].
      intros (u & Hu & He & Hp).
      pose proof (proj1 (find_none_elem _ _) Hf u Hu) as Hm.
      assert (matches email password u = true) by now apply matches_true.
      congruence.
    + intros profile H. discriminate H.
    + intros msg [= <-]. split; reflexivity.
Qed.

Lemma login_outcome_witness :
  let a := logout (fst (signup (mkClock 1 "t") "a@x.io" "pw" "ann" (mount [] None))) in
  login "a@x.io" "no" a = (a, Threw "Invalid email or password").
Proof.
  intros a.
  destruct (login_outcome "a@x.io" "no" a) as (_ & _ & Hfail).
  destruct (Hfail "Invalid email or password" eq_refl) as [_ Hsame].
  rewrite (surjective_pairing (login "a@x.io" "no" a)), Hsame.
  reflexivity.
Defined.

Lemma withoutPassword_withPortfolio s u :
  withoutPassword (withPortfolio s u) = withPortfolio s (withoutPassword u).
Proof. reflexivity. Qed.

Lemma authStep_session_ok a op : session_ok a -> session_ok (authStep a op).
Proof.
  intros [Hsaved Hcur]. destruct op as [clock email password username
                                       | email password | | s]; simpl.
  - unfold signup. destruct (List.find _ (users a)); [now split|].
    split; [reflexivity|]. cbn [fst openSession currentUser users].
    intros u [= <-]. eexists. split; [|reflexivity].
    apply elem_of_app. right. now left.
  - rewrite login_unfold.
    destruct (List.find _ (users a)) as [user|] eqn:Hf; [|now split].
    split; [reflexivity|]. cbn [fst openSession currentUser users].
    intros u [= <-]. exists user. split; [|reflexivity].
    now apply find_some_elem in Hf as [? _].
  - split; [reflexivity|]. simpl. intros u H. discriminate H.
  - unfold updateUserData. destruct (currentUser a) as [current|] eqn:Hc;
      [|split; [now rewrite Hc | intros u H; rewrite Hc in H; discriminate H]].
    split; [reflexivity|]. cbn [openSession currentUser users].
    intros u [= <-]. destruct (Hcur current eq_refl) as (r & Hr & Hrc).
    exists (withPortfolio s r). split.
    + apply list_elem_of_In, List.in_map_iff. exists r. split.
      * assert (u_id r = u_id current) as -> by now rewrite <- Hrc.
        now rewrite Z.eqb_refl.
      * now apply list_elem_of_In.
    + now rewrite withoutPassword_withPortfolio, Hrc.
Qed.

Lemma authRun_session_ok ops a : session_ok a -> session_ok (authRun ops a).
Proof.
  unfold authRun. revert a.
  induction ops as [|op ops IH]; intros a Ha; [exact Ha|].
  simpl. apply IH. now apply authStep_session_ok.
Qed.

(** X24. From a fresh browser on, whatever is done through the context, the
    profile saved in [localStorage] is the current profile, and the current
    profile is the record of one of the accounts less its password: the
    session never holds a password, and it never drifts from the account it
    stands for. *)
Theorem session_stays_consistent (ops : list AuthOp) (storedUsers : list User) :
  let a := authRun ops (mount storedUsers None) in
  savedUser a = currentUser a /\
  forall u, currentUser a = Some u ->
    u_password u = None /\
    exists r, r ∈ users a /\ withoutPassword r = u.
Proof.
  intros a.
  assert (Hok : session_ok a).
  { apply authRun_session_ok. split; [reflexivity|].
    intros u H. discriminate H. }
  destruct Hok as [Hsaved Hcur]. split; [exact Hsaved|].
  intros u Hu. destruct (Hcur u Hu) as (r & Hr & <-).
  split; [reflexivity|]. now exists r.
Qed.

Lemma emails_map_update s current us :
  List.map u_email
    (List.map (fun u => if Z.eqb (u_id u) (u_id current)
                        then withPortfolio s u else u) us)
  = List.map u_email us.
Proof.
  rewrite List.map_map. apply List.map_ext. intros u.
  now destruct (Z.eqb _ _).
Qed.

Lemma authStep_emails a op :
  NoDup (List.map u_email (users a)) ->
  NoDup (List.map u_email (users (authStep a op))).
Proof.
  intros Ha. destruct op as [clock email password username
                             | email password | | s]; simpl.
  - unfold signup.
    destruct (List.find _ (users a)) eqn:Hf; [exact Ha|].
    cbn [fst openSession users]. rewrite List.map_app. simpl.
    apply NoDup_app. split; [exact Ha|]. split; [|apply NoDup_singleton].
    intros e He ->%list_elem_of_singleton.
    apply list_elem_of_In, List.in_map_iff in He as (u & Hu & Hin).
    pose proof (List.find_none _ _ Hf u Hin) as Hne. simpl in Hne.
    apply String.eqb_neq in Hne. contradiction.
  - rewrite login_unfold. now destruct (List.find _ (users a)).
  - exact Ha.
  - unfold updateUserData. destruct (currentUser a); [|exact Ha].
    cbn [openSession users]. now rewrite emails_map_update.
Qed.

(** X25. No two accounts ever share an email: starting from accounts with
    distinct emails, no sequence of sign-ups, logins, logouts and portfolio
    updates produces a second account for an email. *)
Theorem emails_stay_unique (ops : list AuthOp) (a : Auth) :
  NoDup (List.map u_email (users a)) ->
  NoDup (List.map u_email (users (authRun ops a))).
Proof.
  unfold authRun. revert a.
  induction ops as [|op ops IH]; intros a Ha; [exact Ha|].
  simpl. apply IH. now apply authStep_emails.
Qed.

Lemma emails_stay_unique_witness :
  let ops := [OpSignup (mkClock 1 "t") "a@x.io" "pw" "ann";
              OpLogout;
              OpSignup (mkClock 2 "t") "a@x.io" "other" "bob"] in
  List.map u_username (users (authRun ops (mount [] None))) = ["ann"] /\
  NoDup (List.map u_email (users (authRun ops (mount [] None)))).
Proof.
  intros ops. split; [reflexivity|].
  apply (emails_stay_unique ops (mount [] None)). constructor.
Defined.

(** X26. What [updateUserData] saves is what the next login finds: after a
    login, an update of the portfolio and a logout, a login with the same
    email and password returns the same profile with the saved portfolio. *)
Theorem saved_portfolio_survives_logout (email password : string) (s : Store)
    (a : Auth) (profile : User) :
  snd (login email password a) = Returned profile ->
  let a1 := fst (login email password a) in
  let a2 := logout (updateUserData s a1) in
  snd (login email password a2) = Returned (withPortfolio s profile) /\
  currentUser (fst (login email password a2)) = Some (withPortfolio s profile).
Proof.
  intros Hlogin a1 a2. unfold a2, a1. revert Hlogin. rewrite !login_unfold.
  destruct (List.find (matches email password) (users a)) as [user|] eqn:Hf;
    [|discriminate]. cbn [fst snd]. intros [= <-].
  unfold updateUserData. cbn [openSession currentUser users logout].
  rewrite find_map_stable.
  - rewrite Hf. cbn [option_map withoutPassword u_id].
    rewrite Z.eqb_refl. cbn [fst snd openSession currentUser].
    now rewrite withoutPassword_withPortfolio.
  - intros u. now destruct (Z.eqb _ _).
Qed.

Lemma saved_portfolio_survives_logout_witness :
  let a := logout (fst (signup (mkClock 1 "t") "a@x.io" "pw" "ann" (mount [] None))) in
  let s := {| balance := 7; holdings := ∅; transactions := [] |} in
  let a2 := logout (updateUserData s (fst (login "a@x.io" "pw" a))) in
  (u_portfolio <$> currentUser (fst (login "a@x.io" "pw" a2))) = Some s.
Proof.
  intros a s a2.
  destruct (saved_portfolio_survives_logout "a@x.io" "pw" s a
              (withoutPassword
                 (mkUser 1 "a@x.io" (Some "pw") "ann" initialStore "t"))
              eq_refl) as [_ Hcur].
  fold a2 in Hcur. now rewrite Hcur.
Defined.

(** X27. [updateUserData] writes portfolios and nothing else: the accounts
    keep their number, order, ids, emails, passwords and user names, an
    account whose id is not the current one keeps its portfolio, and with
    no session open nothing changes at all. *)
Theorem update_keeps_credentials (s : Store) (a : Auth) :
  let a' := updateUserData s a in
  List.map withoutPortfolio (users a') = List.map withoutPortfolio (users a) /\
  (forall current i u,
     currentUser a = Some current -> users a !! i = Some u ->
     u_id u <> u_id current -> users a' !! i = Some u) /\
  (currentUser a = None -> a' = a).
Proof.
  intros a'. unfold a', updateUserData.
  destruct (currentUser a) as [current|] eqn:Hc.
  - cbn [openSession users]. split; [|split].
    + rewrite List.map_map. apply List.map_ext. intros u.
      now destruct (Z.eqb _ _).
    + intros c i u [= <-] Hu Hne.
      change (List.map ?f ?l) with (f <$> l). rewrite list_lookup_fmap, Hu.
      simpl. apply Z.eqb_neq in Hne. now rewrite Hne.
    + discriminate.
  - split; [reflexivity|]. split; [discriminate | reflexivity].
Qed.

(** X28. A submit of the sign-in form ends with the loading flag down and
    one of two outcomes.  Either no error is shown and a session is open on
    a profile with the email of the form and no password; or one of the
    three messages is shown ("Invalid email or password", "Username is
    required", "User already exists") and the accounts and the session are
    as they were: a sign-up without a user name, or for a taken email,
    creates nothing. *)
Theorem submit_outcome (clock : Clock) (f : Form) (a : Auth) :
  let f' := fst (handleSubmit clock f a) in
  let a' := snd (handleSubmit clock f a) in
  f_loading f' = false /\
  ((f_error f' = "" /\
    exists profile, currentUser a' = Some profile /\
                    u_email profile = f_email f /\ u_password profile = None)
   \/
   ((f_error f' = "Invalid email or password" \/
     f_error f' = "Username is required" \/
     f_error f' = "User already exists") /\ a' = a)).
Proof.
  intros f' a'. unfold f', a', handleSubmit.
  destruct (f_isLogin f).
  - rewrite login_unfold.
    destruct (List.find (matches (f_email f) (f_password f)) (users a))
      as [user|] eqn:Hf; cbn [fst snd submitted f_loading f_error].
    + split; [reflexivity|]. left. split; [reflexivity|].
      eexists. split; [reflexivity|]. split; [|reflexivity].
      apply find_some_elem in Hf as [_ Hm].
      now apply matches_true in Hm as [? _].
    + split; [reflexivity|]. right. split; [now left | reflexivity].
  - destruct (String.eqb (f_username f) "");
      cbn [fst snd submitted f_loading f_error].
    + split; [reflexivity|]. right. split; [right; now left | reflexivity].
    + unfold signup. destruct (List.find _ (users a));
        cbn [fst snd submitted f_loading f_error].
      * split; [reflexivity|]. right. split; [right; now right | reflexivity].
      * split; [reflexivity|]. left. split; [reflexivity|].
        eexists. split; [reflexivity|]. split; reflexivity.
Qed.
